(** * cheatbot_gemini: document-to-context pipeline and session routing

    A shallow embedding of [cheatbot_gemini.py].  Python [str] values are
    lists of Unicode code points, [int] values are [Z], the global dict
    [USER_TEXTS] is a [gmap Z str] threaded through the handlers, and the
    visible effects of a handler (messages sent, downloads, library and
    backend calls, console output) are collected in a trace. *)

From Stdlib Require Import String Ascii NArith ZArith List Lia DecimalString.
From stdpp Require Import base option list gmap.

Local Open Scope N_scope.

(** ** Python strings *)

(** A [str] is a sequence of code points; [len] is its [length]. *)
Abbreviation char := N (only parsing).
Abbreviation str := (list N) (only parsing).

(** String literals of the source are written as UTF-8 text and decoded to
    code points (the source file is UTF-8 encoded, PEP 3120). *)
Fixpoint utf8_decode (bs : list N) : str :=
  match bs with
  | [] => []
  | b0 :: r0 =>
      if b0 <? 0x80 then b0 :: utf8_decode r0
      else if b0 <? 0xE0 then
        match r0 with
        | b1 :: r1 =>
            N.lor (N.shiftl (N.land b0 0x1F) 6) (N.land b1 0x3F) :: utf8_decode r1
        | _ => []
        end
      else if b0 <? 0xF0 then
        match r0 with
        | b1 :: b2 :: r2 =>
            N.lor (N.shiftl (N.land b0 0x0F) 12)
              (N.lor (N.shiftl (N.land b1 0x3F) 6) (N.land b2 0x3F))
              :: utf8_decode r2
        | _ => []
        end
      else
        match r0 with
        | b1 :: b2 :: b3 :: r3 =>
            N.lor (N.shiftl (N.land b0 0x07) 18)
              (N.lor (N.shiftl (N.land b1 0x3F) 12)
                 (N.lor (N.shiftl (N.land b2 0x3F) 6) (N.land b3 0x3F)))
              :: utf8_decode r3
        | _ => []
        end
  end.

Definition utf8 (s : string) : str :=
  utf8_decode (List.map N_of_ascii (list_ascii_of_string s)).

Definition LF : char := 0x0A.
Definition TAB : char := 0x09.
Definition SPACE : char := 0x20.

(** [str.isspace] on one character: the code points CPython's
    [_PyUnicode_IsWhitespace] accepts. *)
Definition isspace (c : char) : bool :=
  ((0x09 <=? c) && (c <=? 0x0D)) || ((0x1C <=? c) && (c <=? 0x20))
  || (c =? 0x85) || (c =? 0xA0) || (c =? 0x1680)
  || ((0x2000 <=? c) && (c <=? 0x200A))
  || (c =? 0x2028) || (c =? 0x2029) || (c =? 0x202F) || (c =? 0x205F)
  || (c =? 0x3000).

(** [s.lstrip()], [s.rstrip()], [s.strip()] without argument. *)
Fixpoint lstrip (s : str) : str :=
  match s with
  | c :: s' => if isspace c then lstrip s' else s
  | [] => []
  end.

Definition rstrip (s : str) : str := rev (lstrip (rev s)).

Definition strip (s : str) : str := rstrip (lstrip s).

(** [s.replace(old, new)] for one-character [old] and [new]. *)
Definition replace (old new : char) (s : str) : str :=
  List.map (fun c => if c =? old then new else c) s.

(** [len(s)]. *)
Definition len (s : str) : Z := Z.of_nat (length s).

(** The slice [s[:n]]. *)
Definition slice_to (n : Z) (s : str) : str :=
  if (n <? 0)%Z then take (length s - Z.to_nat (- n)) s
  else take (Z.to_nat n) s.

(** [sep.join(parts)]. *)
Fixpoint join (sep : str) (parts : list str) : str :=
  match parts with
  | [] => []
  | [p] => p
  | p :: ps => p ++ sep ++ join sep ps
  end.

(** ** Regular expressions of the form [[class]{m,}] *)

(** Length of the longest prefix of [s] made of characters of the class:
    what the greedy quantifier consumes. *)
Fixpoint run_length (cls : char -> bool) (s : str) : nat :=
  match s with
  | c :: s' => if cls c then S (run_length cls s') else 0
  | [] => 0
  end.

(** [re.sub(r"[class]{m,}", repl, s)] for [1 <= m]: scanning from the left,
    a match starts at the current position when the run of class characters
    there is at least [m] long; the whole run is the match (greedy), [repl]
    is emitted and the scan resumes after it.  Otherwise the character is
    copied.  [skip] counts the characters of the current match still to be
    passed over. *)
Fixpoint re_sub_scan (cls : char -> bool) (m : nat) (repl : str)
    (skip : nat) (s : str) : str :=
  match s with
  | [] => []
  | c :: s' =>
      match skip with
      | S k => re_sub_scan cls m repl k s'
      | O =>
          let n := run_length cls s in
          if (1 <=? n)%nat && (m <=? n)%nat
          then repl ++ re_sub_scan cls m repl (n - 1) s'
          else c :: re_sub_scan cls m repl 0 s'
      end
  end.

Definition re_sub_run (cls : char -> bool) (m : nat) (repl s : str) : str :=
  re_sub_scan cls m repl 0 s.

(** ** Runs of a character class *)

Section RunDefinitions.
Variable cls : char -> bool.

Definition starts_with (s : str) : bool :=
  match s with
  | c :: _ => cls c
  | [] => false
  end.

(** No two adjacent characters of [s] are both in the class. *)
Fixpoint no_adjacent (s : str) : bool :=
  match s with
  | c :: s' => negb (cls c && starts_with s') && no_adjacent s'
  | [] => true
  end.

(** Every run of class characters becomes the single character [r]. *)
Fixpoint collapse (r : char) (s : str) : str :=
  match s with
  | [] => []
  | c :: s' =>
      if cls c then
        if starts_with s' then collapse r s' else r :: collapse r s'
      else c :: collapse r s'
  end.
End RunDefinitions.

(** ** Utilities of the source *)

Definition ARABIC_YEH : char := 0x064A.
Definition FARSI_YEH : char := 0x06CC.
Definition ARABIC_KAF : char := 0x0643.
Definition KEHEH : char := 0x06A9.

(** The class [[ \t]]. *)
Definition hspace (c : char) : bool := (c =? SPACE) || (c =? TAB).

(** The class of [\n]. *)
Definition newline (c : char) : bool := c =? LF.

Definition normalize_persian (text : str) : str :=
  let text := replace ARABIC_KAF KEHEH (replace ARABIC_YEH FARSI_YEH text) in
  let text := re_sub_run hspace 1 [SPACE] text in
  let text := re_sub_run newline 2 [LF] text in
  strip text.

Definition safe_name_char (c : char) : bool :=
  ((0x61 <=? c) && (c <=? 0x7A)) || ((0x41 <=? c) && (c <=? 0x5A))
  || ((0x30 <=? c) && (c <=? 0x39))
  || (c =? 0x5F) || (c =? 0x2E) || (c =? 0x2D)
  || ((0x0600 <=? c) && (c <=? 0x06FF)).

(** The class [[^a-zA-Z0-9_.\-؀-ۿ]]. *)
Definition unsafe_name_char (c : char) : bool := negb (safe_name_char c).

Definition MAX_CONTEXT_CHARS : Z := 15000.
Definition MAX_FILE_MB : Z := 20.

Definition file_too_large (size_bytes : Z) : bool :=
  (size_bytes >? MAX_FILE_MB * 1024 * 1024)%Z.

(** ** Exceptions and the environment *)

(** An instance of a subclass of [Exception], with its [repr]. *)
Inductive exn := Exception (repr : str).

Definition exn_repr (e : exn) : str := let 'Exception r := e in r.

Inductive result (A : Type) :=
| Ok (a : A)
| Raise (e : exn).
Arguments Ok {A} a.
Arguments Raise {A} e.

(** What the handlers take from outside the repository: standard-library
    functions on paths and strings, the extraction libraries and the
    generation backend, each answering for the argument it is called
    with.  Paths follow the POSIX conventions. *)
Record env := {
  uuid4_hex10 : str;                              (* uuid.uuid4().hex[:10] *)
  splitext : str -> str * str;                    (* os.path.splitext *)
  lower : str -> str;                             (* str.lower *)
  pdf_page_texts : str -> result (list str);      (* fitz.open, page.get_text *)
  image_to_string : str -> result str;            (* Image.open, pytesseract *)
  docx_paragraph_texts : str -> result (list str);(* Document(path).paragraphs *)
  read_text : str -> result str;                  (* open(path, errors=ignore).read() *)
  generate_content : str -> result (option str)   (* resp.text of the backend *)
}.

(** [x or ""] for an optional string [x]. *)
Definition or_empty (x : option str) : str :=
  match x with
  | Some s => s
  | None => []
  end.

Definition DOWNLOAD_DIR : str := utf8 "downloads".

Definition safe_unique_path (E : env) (original_name : option str)
    (suffix : str) : str :=
  let name :=
    match original_name with
    | Some (c :: n) => c :: n
    | _ => utf8 "file" ++ suffix
    end in
  let name := re_sub_run unsafe_name_char 1 (utf8 "_") name in
  let uid := uuid4_hex10 E in
  DOWNLOAD_DIR ++ utf8 "/" ++ uid ++ utf8 "_" ++ name.

Definition extract_text (E : env) (path : str) : result str :=
  let ext := lower E (snd (splitext E path)) in
  if bool_decide (ext = utf8 ".pdf") then
    match pdf_page_texts E path with
    | Ok out => Ok (normalize_persian (join [LF] out))
    | Raise e => Raise e
    end
  else if bool_decide (ext ∈ [utf8 ".png"; utf8 ".jpg"; utf8 ".jpeg"; utf8 ".webp"]) then
    match image_to_string E path with
    | Ok text => Ok (normalize_persian text)
    | Raise e => Raise e
    end
  else if bool_decide (ext = utf8 ".docx") then
    match docx_paragraph_texts E path with
    | Ok paragraphs => Ok (normalize_persian (join [LF] paragraphs))
    | Raise e => Raise e
    end
  else if bool_decide (ext = utf8 ".txt") then
    match read_text E path with
    | Ok text => Ok (normalize_persian text)
    | Raise e => Raise e
    end
  else Ok (normalize_persian []).

Definition gemini_answer (E : env) (prompt : str) : result str :=
  match generate_content E prompt with
  | Ok text => Ok (strip (or_empty text))
  | Raise e => Raise e
  end.

(** ** Handlers *)

(** The parts of [update.message] the handlers read. *)
Record Document := {
  file_id : str;
  file_name : option str;
  file_size : option Z
}.

Record Message := {
  from_user_id : Z;
  text : option str;
  document : option Document;
  photo : list str          (* file ids of the sizes, largest last *)
}.

(** The effects of a handler that are visible outside it. *)
Inductive event :=
| Reply (msg : str)              (* update.message.reply_text(msg) *)
| Download (file path : str)     (* get_file(), download_to_drive(path) *)
| CallExtract (path : str)       (* asyncio.to_thread(extract_text, path) *)
| CallGenerate (prompt : str)    (* asyncio.to_thread(gemini_answer, prompt) *)
| ConsolePrint (line : str).     (* print(...) *)

(** A handler runs on the current [USER_TEXTS]; it ends by returning or by
    raising, and leaves the new [USER_TEXTS] and the trace of its effects. *)
Definition M (A : Type) : Type :=
  gmap Z (list N) -> result A * gmap Z (list N) * list event.

#[export] Instance M_ret : MRet M := fun A a st => (Ok a, st, []).

#[export] Instance M_bind : MBind M := fun A B f m st =>
  match m st with
  | (Ok a, st1, tr1) =>
      match f a st1 with
      | (r, st2, tr2) => (r, st2, tr1 ++ tr2)
      end
  | (Raise e, st1, tr1) => (Raise e, st1, tr1)
  end.

Definition emit (ev : event) : M unit := fun st => (Ok tt, st, [ev]).

(** An offloaded call: the event is recorded and the call's result, or its
    exception, comes back to the handler. *)
Definition call {A : Type} (ev : event) (r : result A) : M A :=
  fun st => (r, st, [ev]).

Definition get_texts : M (gmap Z (list N)) := fun st => (Ok st, st, []).

Definition put_texts (st : gmap Z (list N)) : M unit := fun _ => (Ok tt, st, []).

(** [try: body except Exception as e: handler e]. *)
Definition try_except {A : Type} (body : M A) (handler : exn -> M A) : M A :=
  fun st =>
    match body st with
    | (Raise e, st1, tr1) =>
        match handler e st1 with
        | (r, st2, tr2) => (r, st2, tr1 ++ tr2)
        end
    | done => done
    end.

Definition texts_after {A : Type} (r : result A * gmap Z (list N) * list event) :=
  snd (fst r).

Definition trace_of {A : Type} (r : result A * gmap Z (list N) * list event) :=
  snd r.

Definition outcome {A : Type} (r : result A * gmap Z (list N) * list event) :=
  fst (fst r).

(** The messages sent to the user, in order. *)
Definition replies (tr : list event) : list (list N) :=
  omap (fun ev => match ev with Reply msg => Some msg | _ => None end) tr.

(** The prompts sent to the backend, in order. *)
Definition prompts (tr : list event) : list (list N) :=
  omap (fun ev => match ev with CallGenerate p => Some p | _ => None end) tr.

(** Text literals of the handlers. *)

Definition BTN_FORGET : str :=
  utf8 "فراموشی 🗑".

Definition BTN_START : str :=
  utf8 "شروع 📄".

Definition MSG_FORGOTTEN : str :=
  utf8 "✅ فایل قبلی فراموش شد."
  ++ [LF]
  ++ utf8 "📄 فایل جدید ارسال کن.".

Definition MSG_SEND_FILE : str :=
  utf8 "📄 لطفاً فایل را ارسال کن.".

Definition MSG_EXTRACTING : str :=
  utf8 "⏳ در حال استخراج متن...".

Definition MSG_NO_TEXT : str :=
  utf8 "❌ متن قابل‌استفاده‌ای استخراج نشد.".

Definition MSG_EXTRACTED : str :=
  utf8 "✅ متن استخراج شد."
  ++ [LF]
  ++ utf8 "❓ حالا سؤال خودت رو بپرس.".

Definition MSG_OCR : str :=
  utf8 "⏳ در حال OCR عکس...".

Definition MSG_NO_TEXT_PHOTO : str :=
  utf8 "❌ متن قابل‌استفاده‌ای از عکس استخراج نشد.".

Definition MSG_PREPARING : str :=
  utf8 "🤖 دارم جواب رو آماده می‌کنم...".

Definition MSG_NO_ANSWER : str :=
  utf8 "❌ پاسخی تولید نشد.".

Definition MSG_GEMINI_ERROR : str :=
  utf8 "❌ خطا در اتصال/پاسخ‌دهی Gemini. لطفاً دوباره امتحان کن.".

Definition OPEN_PREFIX : str :=
  utf8 "به این سؤال دقیق و واضح جواب بده:"
  ++ [LF].

Definition GROUNDED_HEAD : str :=
  [LF]
  ++ utf8 "تو یک دستیار پاسخ‌گویی هستی."
  ++ [LF]
  ++ utf8 "اول متن را در نظر بگیر و بعد به سؤال جواب بده."
  ++ [LF]
  ++ utf8 "اگر پاسخ در متن نبود، صریح بگو:"
  ++ [LF]
  ++ utf8 "«این اطلاعات در متن موجود نیست.»"
  ++ [LF; LF]
  ++ utf8 "متن:"
  ++ [LF].

Definition GROUNDED_MID : str :=
  [LF; LF]
  ++ utf8 "سؤال:"
  ++ [LF].

Definition GROUNDED_TAIL : str :=
  [LF].

Definition MSG_TOO_LARGE : str :=
  utf8 "❌ فایل خیلی بزرگه. (حداکثر "
  ++ utf8 (DecimalString.NilZero.string_of_int (Z.to_int MAX_FILE_MB))
  ++ utf8 "MB)".

Definition handle_buttons (msg : Message) : M unit :=
  let user_id := from_user_id msg in
  let text := strip (or_empty (text msg)) in
  if bool_decide (text = BTN_FORGET) then
    st ← get_texts;
    put_texts (delete user_id st);;
    emit (Reply MSG_FORGOTTEN)
  else if bool_decide (text = BTN_START) then
    emit (Reply MSG_SEND_FILE)
  else mret tt.

(** The condition [doc.file_size and file_too_large(doc.file_size)]: an
    absent size ([None]) and the size [0] are falsy. *)
Definition declared_too_large (doc : Document) : bool :=
  match file_size doc with
  | Some size => negb (size =? 0)%Z && file_too_large size
  | None => false
  end.

(** The path a document is downloaded to. *)
Definition document_path (E : env) (doc : Document) : str :=
  safe_unique_path E (file_name doc)
    (snd (splitext E (or_empty (file_name doc)))).

Definition handle_document (E : env) (msg : Message) : M unit :=
  let user_id := from_user_id msg in
  match document msg with
  | None => mret tt
  | Some doc =>
      if declared_too_large doc then emit (Reply MSG_TOO_LARGE)
      else
        let file_path := document_path E doc in
        emit (Download (file_id doc) file_path);;
        emit (Reply MSG_EXTRACTING);;
        text ← call (CallExtract file_path) (extract_text E file_path);
        if (len text <? 50)%Z then emit (Reply MSG_NO_TEXT)
        else
          st ← get_texts;
          put_texts (<[user_id := text]> st);;
          emit (Reply MSG_EXTRACTED)
  end.

(** The path a photo is downloaded to. *)
Definition photo_path (E : env) : str :=
  safe_unique_path E (Some (utf8 "photo.jpg")) (utf8 ".jpg").

(** [photos[-1]] is taken when [photos] is not empty. *)
Definition handle_photo (E : env) (msg : Message) : M unit :=
  let user_id := from_user_id msg in
  match last (photo msg) with
  | None => mret tt
  | Some largest =>
      let file_path := photo_path E in
      emit (Download largest file_path);;
      emit (Reply MSG_OCR);;
      text ← call (CallExtract file_path) (extract_text E file_path);
      if (len text <? 50)%Z then emit (Reply MSG_NO_TEXT_PHOTO)
      else
        st ← get_texts;
        put_texts (<[user_id := text]> st);;
        emit (Reply MSG_EXTRACTED)
  end.

(** The two prompts of [handle_question]. *)
Definition context_of (stored : str) : str := slice_to MAX_CONTEXT_CHARS stored.

Definition grounded_prompt (stored question : str) : str :=
  let context_text := context_of stored in
  strip (GROUNDED_HEAD ++ context_text ++ GROUNDED_MID ++ question ++ GROUNDED_TAIL).

Definition open_prompt (question : str) : str := OPEN_PREFIX ++ question.

(** The prompt for a question of [user_id]: grounded when the user has a
    stored text, open otherwise. *)
Definition question_prompt (st : gmap Z (list N)) (user_id : Z) (question : str) : str :=
  match st !! user_id with
  | Some stored => grounded_prompt stored question
  | None => open_prompt question
  end.

Definition handle_question (E : env) (msg : Message) : M unit :=
  let user_id := from_user_id msg in
  let question := strip (or_empty (text msg)) in
  match question with
  | [] => mret tt
  | _ :: _ =>
      st ← get_texts;
      let prompt := question_prompt st user_id question in
      emit (Reply MSG_PREPARING);;
      try_except
        (answer ← call (CallGenerate prompt) (gemini_answer E prompt);
         let answer := match answer with [] => MSG_NO_ANSWER | _ :: _ => answer end in
         emit (Reply answer))
        (fun e =>
           emit (ConsolePrint (utf8 "Gemini error:" ++ [SPACE] ++ exn_repr e));;
           emit (Reply MSG_GEMINI_ERROR))
  end.

Definition MSG_WELCOME : str :=
  utf8 "👋 سلام!"
  ++ [LF; LF]
  ++ utf8 "📄 یک فایل (PDF، Word، عکس یا TXT) ارسال کن"
  ++ [LF]
  ++ utf8 "❓ بعدش سؤال بپرس تا جواب بدم"
  ++ [LF; LF]
  ++ utf8 "🗑 با «فراموشی» فایل قبلی پاک می‌شه".

(** The [/start] command. *)
Definition start (msg : Message) : M unit := emit (Reply MSG_WELCOME).

(** ** Normal forms and the store invariant *)

(** Characters that are not white space. *)
Definition visible (c : char) : bool := negb (isspace c).

(** The texts the normalizer has nothing to do on: no Arabic yeh or kaf, no
    tab, no two adjacent blanks, no two adjacent newlines, no white space
    at either end. *)
Definition normalized (t : str) : bool :=
  forallb (fun c => negb (c =? ARABIC_YEH) && negb (c =? ARABIC_KAF)
                    && negb (c =? TAB)) t
  && no_adjacent hspace t && no_adjacent newline t
  && negb (starts_with isspace t) && negb (starts_with isspace (rev t)).

(** Every stored text passed the usability threshold and is normalized. *)
Definition texts_ok (st : gmap Z (list N)) : Prop :=
  ∀ user t, st !! user = Some t → (50 <= len t)%Z ∧ normalized t = true.

(** ** Configuration at import *)

(** [os.environ.get(name, "").strip()]. *)
Definition environ_get (environ : gmap (list N) (list N)) (name : str) : str :=
  strip (default [] (environ !! name)).

(** The module-level configuration: the two values the module keeps, or the
    [RuntimeError] that stops the import. *)
Definition module_config (environ : gmap (list N) (list N)) : result (str * str) :=
  let BOT_TOKEN := environ_get environ (utf8 "BOT_TOKEN") in
  let GEMINI_API_KEY :=
    match environ_get environ (utf8 "GEMINI_API_KEY") with
    | [] => environ_get environ (utf8 "GOOGLE_API_KEY")
    | c :: k => c :: k
    end in
  match BOT_TOKEN with
  | [] =>
      Raise (Exception
        (utf8 "RuntimeError('BOT_TOKEN is not set in environment variables.')"))
  | _ :: _ =>
      match GEMINI_API_KEY with
      | [] =>
          Raise (Exception
            (utf8 "RuntimeError('GEMINI_API_KEY (or GOOGLE_API_KEY) is not set in environment variables.')"))
      | _ :: _ => Ok (BOT_TOKEN, GEMINI_API_KEY)
      end
  end.

(** ** A POSIX environment

    [os.path.splitext] of [posixpath] and [str.lower] on ASCII letters, to
    run the handlers on concrete requests. *)

Fixpoint after_last (x : char) (s : str) : option str :=
  match s with
  | [] => None
  | c :: s' =>
      match after_last x s' with
      | Some t => Some t
      | None => if c =? x then Some s' else None
      end
  end.

Fixpoint skip_dots (s : str) : str :=
  match s with
  | c :: s' => if c =? 0x2E then skip_dots s' else s
  | [] => []
  end.

Definition posix_splitext (p : str) : str * str :=
  let base := default p (after_last 0x2F p) in
  match after_last 0x2E (skip_dots base) with
  | Some e => (take (length p - S (length e)) p, 0x2E :: e)
  | None => (p, [])
  end.

Definition ascii_lower (s : str) : str :=
  List.map (fun c => if (0x41 <=? c) && (c <=? 0x5A) then c + 0x20 else c) s.

Definition posix_env (uid : str)
    (pdf docx : str -> result (list str)) (ocr txt : str -> result str)
    (backend : str -> result (option str)) : env :=
  {| uuid4_hex10 := uid;
     splitext := posix_splitext;
     lower := ascii_lower;
     pdf_page_texts := pdf;
     image_to_string := ocr;
     docx_paragraph_texts := docx;
     read_text := txt;
     generate_content := backend |}.

(** ** Concrete requests *)

Definition broken_file : exn :=
  Exception (utf8 "FileDataError('cannot open broken document')").

Definition quota_exceeded : exn :=
  Exception (utf8 "ClientError('429 RESOURCE_EXHAUSTED')").

(** An environment in which text files and images hold [content], PDF and
    Word files cannot be opened, and the backend behaves as [backend]. *)
Definition example_env (content : str)
    (backend : str -> result (option str)) : env :=
  posix_env (utf8 "0a1b2c3d4e")
    (fun _ => Raise broken_file) (fun _ => Raise broken_file)
    (fun _ => Ok content) (fun _ => Ok content)
    backend.

Definition echo_backend (prompt : str) : result (option str) := Ok (Some prompt).

Definition failing_backend (prompt : str) : result (option str) :=
  Raise quota_exceeded.

Definition blank_backend (prompt : str) : result (option str) :=
  Ok (Some (utf8 "  ")).

Definition letters (n : Z) : str := replicate (Z.to_nat n) 0x61.

Definition example_document (name : str) (size : option Z) : Document :=
  {| file_id := utf8 "doc-1"; file_name := Some name; file_size := size |}.

Definition document_message (user : Z) (doc : Document) : Message :=
  {| from_user_id := user; text := None; document := Some doc; photo := [] |}.

Definition photo_message (user : Z) : Message :=
  {| from_user_id := user; text := None; document := None;
     photo := [utf8 "photo-small"; utf8 "photo-large"] |}.

Definition text_message (user : Z) (t : str) : Message :=
  {| from_user_id := user; text := Some t; document := None; photo := [] |}.

Definition plain_env : env := example_env [] echo_backend.
Definition env49 : env := example_env (letters 49) echo_backend.
Definition env50 : env := example_env (letters 50) echo_backend.
Definition env60 : env := example_env (letters 60) echo_backend.
Definition failing_env : env := example_env [] failing_backend.
Definition blank_env : env := example_env [] blank_backend.

Definition notes_doc : Document := example_document (utf8 "notes.txt") (Some 2048%Z).
Definition scan_doc : Document := example_document (utf8 "scan.pdf") (Some 2048%Z).
Definition unsized_doc : Document := example_document (utf8 "big.txt") None.
Definition zero_doc : Document := example_document (utf8 "big.txt") (Some 0%Z).

Definition question_msg : Message := text_message 7 (utf8 " what is it? ").
Definition forget_msg : Message := text_message 7 (utf8 "فراموشی 🗑").

Definition long_store : gmap Z (list N) := {[ 7%Z := letters 15001 ]}.
Definition old_store : gmap Z (list N) := {[ 7%Z := letters 60 ]}.

(** An environment in which images cannot be read. *)
Definition unreadable_image_env : env :=
  posix_env (utf8 "0a1b2c3d4e")
    (fun _ => Ok []) (fun _ => Ok [])
    (fun _ => Raise broken_file) (fun _ => Ok [])
    echo_backend.

(** * Properties *)

(** ** Stripping *)

Lemma lstrip_suffix (s : str) : ∃ p, s = p ++ lstrip s.
Proof.
  induction s as [|c s [p IH]]; simpl.
  - by exists [].
  - destruct (isspace c).
    + exists (c :: p). simpl. by f_equal.
    + by exists [].
Qed.

Lemma rstrip_prefix (s : str) : ∃ q, s = rstrip s ++ q.
Proof.
  unfold rstrip. destruct (lstrip_suffix (rev s)) as [p Hp].
  exists (rev p). rewrite <- rev_app_distr, <- Hp. by rewrite rev_involutive.
Qed.

Lemma strip_infix (s : str) : ∃ p q, s = p ++ strip s ++ q.
Proof.
  unfold strip. destruct (lstrip_suffix s) as [p Hp].
  destruct (rstrip_prefix (lstrip s)) as [q Hq].
  exists p, q. by rewrite <- Hq.
Qed.

Lemma lstrip_id (c : char) (s : str) : isspace c = false → lstrip (c :: s) = c :: s.
Proof. intros H. simpl. by rewrite H. Qed.

Lemma lstrip_snoc (s : str) (c : char) :
  isspace c = false → lstrip (s ++ [c]) = lstrip s ++ [c].
Proof.
  intros H. induction s as [|d s IH]; simpl.
  - by rewrite H.
  - by destruct (isspace d).
Qed.

Lemma lstrip_head (s : str) :
  match lstrip s with c :: _ => isspace c = false | [] => True end.
Proof.
  induction s as [|c s IH]; simpl; [done|].
  by destruct (isspace c) eqn:E.
Qed.

Lemma lstrip_idemp (s : str) : lstrip (lstrip s) = lstrip s.
Proof.
  pose proof (lstrip_head s) as H.
  destruct (lstrip s) as [|c s']; [done|]. by apply lstrip_id.
Qed.

Lemma rstrip_idemp (s : str) : rstrip (rstrip s) = rstrip s.
Proof. unfold rstrip. by rewrite rev_involutive, lstrip_idemp. Qed.

Lemma rstrip_cons (c : char) (s : str) :
  isspace c = false → rstrip (c :: s) = c :: rstrip s.
Proof.
  intros H. unfold rstrip. simpl.
  by rewrite lstrip_snoc, rev_app_distr.
Qed.

(** The last character of a stripped string is not white space. *)
Lemma rstrip_last (s : str) :
  match rev (rstrip s) with c :: _ => isspace c = false | [] => True end.
Proof. unfold rstrip. rewrite rev_involutive. apply lstrip_head. Qed.

Lemma strip_idemp (s : str) : strip (strip s) = strip s.
Proof.
  unfold strip. pose proof (lstrip_head s) as H.
  destruct (lstrip s) as [|c s'] eqn:E; [done|].
  rewrite rstrip_cons by done. rewrite lstrip_id by done.
  rewrite <- rstrip_cons by done. apply rstrip_idemp.
Qed.

(** ** Substitution of runs *)

Section Runs.
Variable cls : char -> bool.

Lemma starts_with_run_length (s : str) :
  starts_with cls s = (1 <=? run_length cls s)%nat.
Proof. destruct s as [|c s]; simpl; [done|]. by destruct (cls c). Qed.

Lemma re_sub_scan_skip (m : nat) (repl : str) (k : nat) (s : str) :
  re_sub_scan cls m repl k s = re_sub_run cls m repl (drop k s).
Proof.
  revert k. induction s as [|c s IH]; intros [|k]; try done.
  simpl. apply IH.
Qed.

(** The scan, one match at a time. *)
Lemma re_sub_run_cons (m : nat) (repl : str) (c : char) (s : str) :
  re_sub_run cls m repl (c :: s) =
    let n := run_length cls (c :: s) in
    if (1 <=? n)%nat && (m <=? n)%nat
    then repl ++ re_sub_run cls m repl (drop n (c :: s))
    else c :: re_sub_run cls m repl s.
Proof.
  unfold re_sub_run at 1. cbn [re_sub_scan]. cbv zeta.
  destruct (run_length cls (c :: s)) as [|n] eqn:En; [done|].
  destruct ((1 <=? S n)%nat && (m <=? S n)%nat); [|done].
  rewrite re_sub_scan_skip. simpl. by rewrite Nat.sub_0_r.
Qed.

Lemma no_adjacent_app_l (s1 s2 : str) :
  no_adjacent cls (s1 ++ s2) = true → no_adjacent cls s1 = true.
Proof.
  induction s1 as [|c s1 IH]; simpl; [done|].
  intros [H1 H2]%andb_prop. rewrite IH by done.
  destruct s1 as [|d s1]; simpl in *; [|by rewrite H1].
  by rewrite andb_false_r.
Qed.

Lemma no_adjacent_app_r (s1 s2 : str) :
  no_adjacent cls (s1 ++ s2) = true → no_adjacent cls s2 = true.
Proof.
  induction s1 as [|c s1 IH]; simpl; [done|].
  intros [_ H2]%andb_prop. by apply IH.
Qed.

Lemma no_adjacent_strip (s : str) :
  no_adjacent cls s = true → no_adjacent cls (strip s) = true.
Proof.
  destruct (strip_infix s) as (p & q & Hs). rewrite Hs at 1.
  intros H%no_adjacent_app_r. by apply no_adjacent_app_l in H.
Qed.

Section Collapse.
Variable r : char.

Lemma collapse_Forall (Q : char -> Prop) (s : str) :
  Q r → Forall Q s → Forall Q (collapse cls r s).
Proof.
  intros Hr. induction 1 as [|c s Hc Hs IH]; simpl; [done|].
  destruct (cls c); [destruct (starts_with cls s)|]; auto.
Qed.

Lemma collapse_class (s : str) :
  Forall (fun c => cls c = true → c = r) (collapse cls r s).
Proof.
  induction s as [|c s IH]; simpl; [done|].
  destruct (cls c) eqn:Ec; [destruct (starts_with cls s)|]; auto.
  constructor; [congruence | done].
Qed.

Lemma starts_with_collapse (s : str) :
  cls r = true → starts_with cls (collapse cls r s) = starts_with cls s.
Proof.
  intros Hr. induction s as [|c s IH]; simpl; [done|].
  destruct (cls c) eqn:Ec; [|done].
  destruct (starts_with cls s) eqn:Es; [|done]. by rewrite IH.
Qed.

Lemma collapse_no_adjacent (s : str) :
  cls r = true → no_adjacent cls (collapse cls r s) = true.
Proof.
  intros Hr. induction s as [|c s IH]; simpl; [done|].
  destruct (cls c) eqn:Ec.
  - destruct (starts_with cls s) eqn:Es; [done|]. simpl.
    by rewrite starts_with_collapse, Es, IH, andb_false_r.
  - simpl. by rewrite Ec, IH.
Qed.

(** A string in which the class occurs only as isolated [r] is not
    changed. *)
Lemma collapse_fixed (s : str) :
  no_adjacent cls s = true →
  Forall (fun c => cls c = true → c = r) s →
  collapse cls r s = s.
Proof.
  intros Ha Hf. induction Hf as [|c s Hc Hs IH]; simpl in *; [done|].
  apply andb_prop in Ha as [H1 H2]. rewrite IH by done.
  destruct (cls c) eqn:Ec; [|done]. simpl in H1.
  apply negb_true_iff in H1. rewrite H1. by rewrite Hc.
Qed.

(** [re.sub(r"[class]+", r, s)]. *)
Lemma re_sub_plus_collapse (s : str) :
  re_sub_run cls 1 [r] s = collapse cls r s.
Proof.
  induction s as [|c s IH]; [done|].
  unfold re_sub_run in *. cbn [re_sub_scan collapse run_length].
  destruct (cls c) eqn:Ec; [|cbn; by rewrite IH].
  cbn. rewrite Nat.sub_0_r. f_equal.
  destruct s as [|d s]; [done|].
  cbn [starts_with run_length]. rewrite <- IH.
  cbn [re_sub_scan run_length].
  destruct (cls d) eqn:Ed.
  - cbn. by rewrite Nat.sub_0_r.
  - done.
Qed.

(** [re.sub(r"c{2,}", c, s)] for the class of the one character [c]. *)
Lemma re_sub_two_collapse (s : str) :
  (∀ c, cls c = true → c = r) →
  re_sub_run cls 2 [r] s = collapse cls r s.
Proof.
  intros Hcls. induction s as [|c s IH]; [done|].
  unfold re_sub_run in *. cbn [re_sub_scan collapse run_length].
  destruct (cls c) eqn:Ec; [|cbn; by rewrite IH].
  destruct s as [|d s]; [cbn; by rewrite (Hcls c)|].
  cbn [starts_with run_length]. rewrite <- IH.
  destruct (cls d) eqn:Ed.
  - cbn [Nat.leb andb app Nat.sub re_sub_scan run_length]. rewrite Ed.
    destruct (run_length cls s) as [|n]; cbn; [|done].
    by rewrite (Hcls d).
  - cbn. by rewrite (Hcls c).
Qed.
End Collapse.
End Runs.

(** Collapsing one class keeps the runs of a disjoint class apart. *)
Lemma collapse_starts_with_other (cls other : char -> bool) (r : char) (s : str) :
  (∀ c, other c = true → cls c = false) → other r = false →
  starts_with other (collapse cls r s) = true → starts_with other s = true.
Proof.
  intros Hd Hr. induction s as [|c s IH]; simpl; [done|].
  destruct (cls c) eqn:Ec; [|done].
  destruct (starts_with cls s) eqn:Es; simpl; [|congruence].
  intros H%IH. destruct s as [|d s]; [done|]. simpl in *.
  apply Hd in H. congruence.
Qed.

Lemma collapse_no_adjacent_other (cls other : char -> bool) (r : char) (s : str) :
  (∀ c, other c = true → cls c = false) → other r = false →
  no_adjacent other s = true → no_adjacent other (collapse cls r s) = true.
Proof.
  intros Hd Hr. induction s as [|c s IH]; simpl; [done|].
  intros [H1 H2]%andb_prop. specialize (IH H2).
  destruct (cls c) eqn:Ec.
  - destruct (starts_with cls s); [done|]. simpl. by rewrite Hr, IH.
  - simpl. rewrite IH, andb_true_r.
    destruct (other c) eqn:Eo; [|done]. simpl in *.
    apply negb_true_iff in H1. apply negb_true_iff.
    destruct (starts_with other (collapse cls r s)) eqn:E; [|done].
    pose proof (collapse_starts_with_other _ _ _ _ Hd Hr E). congruence.
Qed.

(** ** The normalizer *)

Lemma Forall_strip (Q : char -> Prop) (s : str) : Forall Q s → Forall Q (strip s).
Proof.
  destruct (strip_infix s) as (p & q & Hs). rewrite Hs at 1.
  by intros [_ [H _]%Forall_app]%Forall_app.
Qed.

Lemma replace_id (old new : char) (s : str) :
  Forall (fun c => c ≠ old) s → replace old new s = s.
Proof.
  induction 1 as [|c s Hc Hs IH]; [done|].
  unfold replace in *. cbn [List.map]. rewrite IH.
  by destruct (N.eqb_spec c old).
Qed.

Lemma newline_LF (c : char) : newline c = true → c = LF.
Proof. unfold newline. by intros H%N.eqb_eq. Qed.

Lemma hspace_not_newline (c : char) : hspace c = true → newline c = false.
Proof.
  unfold hspace, newline, SPACE, TAB, LF.
  intros [H%N.eqb_eq|H%N.eqb_eq]%orb_prop; by subst.
Qed.

(** The two substitutions of [normalize_persian] collapse runs. *)
Lemma normalize_persian_collapse (t : str) :
  normalize_persian t =
    strip (collapse newline LF (collapse hspace SPACE
      (replace ARABIC_KAF KEHEH (replace ARABIC_YEH FARSI_YEH t)))).
Proof.
  unfold normalize_persian.
  rewrite re_sub_plus_collapse, re_sub_two_collapse; [done|apply newline_LF].
Qed.

(** The letters folded by the normalizer do not occur in its output. *)
Lemma normalize_persian_folded (t : str) :
  Forall (fun c => c ≠ ARABIC_YEH ∧ c ≠ ARABIC_KAF) (normalize_persian t).
Proof.
  rewrite normalize_persian_collapse.
  apply Forall_strip, collapse_Forall; [done|].
  apply collapse_Forall; [done|].
  unfold replace. apply Forall_map, Forall_map, Forall_forall.
  intros c _. unfold ARABIC_YEH, ARABIC_KAF, FARSI_YEH, KEHEH.
  destruct (N.eqb_spec c 1610) as [->|H1]; [done|].
  destruct (N.eqb_spec c 1603) as [->|H2]; done.
Qed.

(** Horizontal white space occurs in the output as single spaces only. *)
Lemma normalize_persian_hspace (t : str) :
  no_adjacent hspace (normalize_persian t) = true
  ∧ Forall (fun c => hspace c = true → c = SPACE) (normalize_persian t).
Proof.
  rewrite normalize_persian_collapse. split.
  - apply no_adjacent_strip, collapse_no_adjacent_other;
      [apply hspace_not_newline|done|].
    by apply collapse_no_adjacent.
  - apply Forall_strip, collapse_Forall; [done|]. apply collapse_class.
Qed.

Lemma normalize_persian_newline (t : str) :
  no_adjacent newline (normalize_persian t) = true.
Proof.
  rewrite normalize_persian_collapse.
  by apply no_adjacent_strip, collapse_no_adjacent.
Qed.

Lemma normalize_persian_stripped (t : str) :
  strip (normalize_persian t) = normalize_persian t.
Proof. unfold normalize_persian. apply strip_idemp. Qed.

(** C2: the normalizer is idempotent, on every string, the empty one
    included: normalizing a normalized text gives it back. *)
Theorem normalize_persian_idempotent (t : str) :
  normalize_persian (normalize_persian t) = normalize_persian t.
Proof.
  rewrite (normalize_persian_collapse (normalize_persian t)).
  pose proof (normalize_persian_folded t) as Hf.
  destruct (normalize_persian_hspace t) as [Hh1 Hh2].
  pose proof (normalize_persian_newline t) as Hn.
  rewrite (replace_id ARABIC_YEH), (replace_id ARABIC_KAF).
  - rewrite (collapse_fixed hspace) by done.
    rewrite (collapse_fixed newline); [|done|].
    + apply normalize_persian_stripped.
    + apply Forall_forall. intros c _. apply newline_LF.
  - eapply Forall_impl; [exact Hf|]. by intros c [_ H].
  - eapply Forall_impl; [exact Hf|]. by intros c [H _].
Qed.

Example normalize_persian_empty : normalize_persian [] = [].
Proof. reflexivity. Qed.

(** C3: the output of the normalizer never contains two newline characters
    in a row, hence no run of two or more. *)
Theorem normalize_persian_no_double_newline (t : str) :
  ∀ before after, normalize_persian t ≠ before ++ [LF; LF] ++ after.
Proof.
  intros before after H.
  pose proof (normalize_persian_newline t) as Hn. rewrite H in Hn.
  by apply no_adjacent_app_r in Hn.
Qed.

(** ** The size gate *)

(** C4: [file_too_large] holds exactly above 20 MiB: it is false at
    20*1024*1024 and true one byte above. *)
Theorem file_too_large_boundary :
  file_too_large (20 * 1024 * 1024) = false
  ∧ file_too_large (20 * 1024 * 1024 + 1) = true
  ∧ ∀ n : Z, file_too_large n = true ↔ (n > 20 * 1024 * 1024)%Z.
Proof.
  split; [done|]. split; [done|].
  intros n. unfold file_too_large, MAX_FILE_MB. rewrite Z.gtb_gt. lia.
Qed.

(** ** Running the handlers *)

Ltac run_handler :=
  unfold mbind, M_bind, mret, M_ret, emit, call, get_texts, put_texts,
    try_except, outcome, texts_after, trace_of; cbn [fst snd app].

Lemma handle_document_run (E : env) (msg : Message) (doc : Document)
    (st : gmap Z (list N)) :
  document msg = Some doc → declared_too_large doc = false →
  handle_document E msg st =
    let path := document_path E doc in
    let before := [Download (file_id doc) path; Reply MSG_EXTRACTING; CallExtract path] in
    match extract_text E path with
    | Raise e => (Raise e, st, before)
    | Ok text =>
        if (len text <? 50)%Z then (Ok tt, st, before ++ [Reply MSG_NO_TEXT])
        else (Ok tt, <[from_user_id msg := text]> st, before ++ [Reply MSG_EXTRACTED])
    end.
Proof.
  intros Hdoc Hgate. unfold handle_document. rewrite Hdoc, Hgate. run_handler.
  destruct (extract_text E (document_path E doc)) as [text|e]; [|done].
  by destruct (len text <? 50)%Z.
Qed.

Lemma handle_photo_run (E : env) (msg : Message) (largest : list N)
    (st : gmap Z (list N)) :
  last (photo msg) = Some largest →
  handle_photo E msg st =
    let path := photo_path E in
    let before := [Download largest path; Reply MSG_OCR; CallExtract path] in
    match extract_text E path with
    | Raise e => (Raise e, st, before)
    | Ok text =>
        if (len text <? 50)%Z then (Ok tt, st, before ++ [Reply MSG_NO_TEXT_PHOTO])
        else (Ok tt, <[from_user_id msg := text]> st, before ++ [Reply MSG_EXTRACTED])
    end.
Proof.
  intros Hlast. unfold handle_photo. rewrite Hlast. run_handler.
  destruct (extract_text E (photo_path E)) as [text|e]; [|done].
  by destruct (len text <? 50)%Z.
Qed.

Lemma handle_question_run (E : env) (msg : Message) (st : gmap Z (list N)) :
  strip (or_empty (text msg)) ≠ [] →
  handle_question E msg st =
    let prompt := question_prompt st (from_user_id msg) (strip (or_empty (text msg))) in
    let before := [Reply MSG_PREPARING; CallGenerate prompt] in
    match generate_content E prompt with
    | Raise e =>
        (Ok tt, st,
         before ++ [ConsolePrint (utf8 "Gemini error:" ++ [SPACE] ++ exn_repr e);
                    Reply MSG_GEMINI_ERROR])
    | Ok text =>
        match strip (or_empty text) with
        | [] => (Ok tt, st, before ++ [Reply MSG_NO_ANSWER])
        | c :: answer => (Ok tt, st, before ++ [Reply (c :: answer)])
        end
    end.
Proof.
  intros Hq. unfold handle_question.
  destruct (strip (or_empty (text msg))) as [|c q] eqn:Eq; [done|].
  run_handler. unfold gemini_answer.
  destruct (generate_content E _) as [t|e]; [|done].
  by destruct (strip (or_empty t)).
Qed.

(** ** Prompts *)

Lemma rstrip_app_tail (x q : str) :
  q ≠ [] → rstrip q = q → rstrip (x ++ q ++ [LF]) = x ++ q.
Proof.
  intros Hne Hq. pose proof (rstrip_last q) as Hl. rewrite Hq in Hl.
  destruct (rev q) as [|c t] eqn:Er.
  { apply (f_equal (@rev N)) in Er. rewrite rev_involutive in Er. done. }
  assert (q = rev t ++ [c]) as ->.
  { apply (f_equal (@rev N)) in Er. by rewrite rev_involutive in Er. }
  unfold rstrip. rewrite !rev_app_distr. simpl. rewrite Hl.
  rewrite rev_involutive. simpl.
  by rewrite rev_app_distr, rev_involutive, <- app_assoc.
Qed.

Lemma strip_template (c : char) (h ctx mid q : str) :
  isspace c = false → q ≠ [] → rstrip q = q →
  strip ((LF :: c :: h) ++ ctx ++ mid ++ q ++ [LF]) = (c :: h) ++ ctx ++ mid ++ q.
Proof.
  intros Hc Hne Hq. unfold strip. cbn [app lstrip]. rewrite Hc.
  change (isspace LF) with true. cbv iota.
  pose proof (rstrip_app_tail (c :: h ++ ctx ++ mid) q Hne Hq) as H.
  rewrite <- !app_comm_cons, <- !app_assoc in H. exact H.
Qed.

Lemma GROUNDED_HEAD_start : ∃ c h, isspace c = false ∧ GROUNDED_HEAD = LF :: c :: h.
Proof. exists 0x062A, (drop 2 GROUNDED_HEAD). split; [done|]. by vm_compute. Qed.

(** The grounded prompt is the template around the context and the
    question: stripping removes the newline that opens the template and
    the one that closes it. *)
Lemma grounded_prompt_template (stored raw : str) :
  strip raw ≠ [] →
  grounded_prompt stored (strip raw) =
    drop 1 GROUNDED_HEAD ++ context_of stored ++ GROUNDED_MID ++ strip raw.
Proof.
  intros Hne. unfold grounded_prompt, GROUNDED_TAIL.
  destruct GROUNDED_HEAD_start as (c & h & Hc & ->).
  apply strip_template; [done|done|]. unfold strip. apply rstrip_idemp.
Qed.

Lemma context_of_take (stored : str) :
  context_of stored = take (Z.to_nat 15000) stored.
Proof. reflexivity. Qed.

Lemma context_of_length (stored : str) : (len (context_of stored) <= 15000)%Z.
Proof. rewrite context_of_take. unfold len. rewrite length_take. lia. Qed.

Lemma handle_question_prompts (E : env) (msg : Message) (st : gmap Z (list N)) :
  strip (or_empty (text msg)) ≠ [] →
  prompts (trace_of (handle_question E msg st)) =
    [question_prompt st (from_user_id msg) (strip (or_empty (text msg)))].
Proof.
  intros Hq. rewrite handle_question_run by done. cbv zeta.
  destruct (generate_content E _) as [t|e]; [|done].
  by destruct (strip (or_empty t)).
Qed.

(** C1: when the user who asks has a stored text, the one prompt sent to
    the backend is the template around the context and the question, and
    the context is at most [MAX_CONTEXT_CHARS] = 15000 characters of the
    stored text; for a stored text longer than that it is exactly its
    first 15000 characters. *)
Theorem grounded_context_truncated (E : env) (msg : Message)
    (st : gmap Z (list N)) (stored : str) :
  strip (or_empty (text msg)) ≠ [] →
  st !! from_user_id msg = Some stored →
  prompts (trace_of (handle_question E msg st)) =
    [drop 1 GROUNDED_HEAD ++ context_of stored ++ GROUNDED_MID
       ++ strip (or_empty (text msg))]
  ∧ (len (context_of stored) <= 15000)%Z
  ∧ ((len stored > 15000)%Z →
       context_of stored = take (Z.to_nat 15000) stored
       ∧ len (context_of stored) = 15000%Z).
Proof.
  intros Hq Hst. rewrite handle_question_prompts by done.
  unfold question_prompt. rewrite Hst, grounded_prompt_template by done.
  split; [done|]. split; [apply context_of_length|].
  intros Hlen. split; [apply context_of_take|].
  rewrite context_of_take. unfold len in *. rewrite length_take. lia.
Qed.


(** ** Documents and photos *)

(** C5: the usability threshold is 50 characters.  When a document passes
    the size gate and extraction returns a text, or a photo is sent and OCR
    returns a text, a text shorter than 50 (49 in particular) is reported as
    an extraction failure and not stored; a text of length 50 or more is
    stored as the text of the user. *)
Theorem usability_threshold (E : env) (msg : Message) (st : gmap Z (list N)) :
  (∀ doc extracted,
     document msg = Some doc → declared_too_large doc = false →
     extract_text E (document_path E doc) = Ok extracted →
     let r := handle_document E msg st in
     ((len extracted < 50)%Z →
        replies (trace_of r) = [MSG_EXTRACTING; MSG_NO_TEXT]
        ∧ texts_after r = st)
     ∧ ((len extracted >= 50)%Z →
        replies (trace_of r) = [MSG_EXTRACTING; MSG_EXTRACTED]
        ∧ texts_after r !! from_user_id msg = Some extracted))
  ∧ (∀ largest extracted,
     last (photo msg) = Some largest →
     extract_text E (photo_path E) = Ok extracted →
     let r := handle_photo E msg st in
     ((len extracted < 50)%Z →
        replies (trace_of r) = [MSG_OCR; MSG_NO_TEXT_PHOTO]
        ∧ texts_after r = st)
     ∧ ((len extracted >= 50)%Z →
        replies (trace_of r) = [MSG_OCR; MSG_EXTRACTED]
        ∧ texts_after r !! from_user_id msg = Some extracted)).
Proof.
  split.
  - intros doc extracted Hdoc Hgate Hex. cbv zeta.
    rewrite (handle_document_run E msg doc st Hdoc Hgate). cbv zeta. rewrite Hex.
    split; intros Hlen.
    + apply Z.ltb_lt in Hlen. by rewrite Hlen.
    + assert ((len extracted <? 50)%Z = false) as -> by (apply Z.ltb_ge; lia).
      split; [done|]. apply lookup_insert_eq.
  - intros largest extracted Hlast Hex. cbv zeta.
    rewrite (handle_photo_run E msg largest st Hlast). cbv zeta. rewrite Hex.
    split; intros Hlen.
    + apply Z.ltb_lt in Hlen. by rewrite Hlen.
    + assert ((len extracted <? 50)%Z = false) as -> by (apply Z.ltb_ge; lia).
      split; [done|]. apply lookup_insert_eq.
Qed.

(** C6: an extraction whose text is shorter than the usability threshold
    changes nothing in [USER_TEXTS]: for every user the entry is as before,
    present or absent; the handler returns, and its last message is the
    extraction-failure message. *)
Theorem short_extraction_keeps_session (E : env) (msg : Message)
    (st : gmap Z (list N)) (extracted : str) :
  (len extracted < 50)%Z →
  (∀ doc,
     document msg = Some doc → declared_too_large doc = false →
     extract_text E (document_path E doc) = Ok extracted →
     let r := handle_document E msg st in
     outcome r = Ok tt
     ∧ (∀ user, texts_after r !! user = st !! user)
     ∧ last (replies (trace_of r)) = Some MSG_NO_TEXT)
  ∧ (∀ largest,
     last (photo msg) = Some largest →
     extract_text E (photo_path E) = Ok extracted →
     let r := handle_photo E msg st in
     outcome r = Ok tt
     ∧ (∀ user, texts_after r !! user = st !! user)
     ∧ last (replies (trace_of r)) = Some MSG_NO_TEXT_PHOTO).
Proof.
  intros Hlen%Z.ltb_lt. split.
  - intros doc Hdoc Hgate Hex. cbv zeta.
    rewrite (handle_document_run E msg doc st Hdoc Hgate). cbv zeta.
    by rewrite Hex, Hlen.
  - intros largest Hlast Hex. cbv zeta.
    rewrite (handle_photo_run E msg largest st Hlast). cbv zeta.
    by rewrite Hex, Hlen.
Qed.

(** C9, as the code has it: an exception of the extraction step is not
    caught in [handle_document].  It leaves the handler; the notice that
    extraction started is the only message sent, and [USER_TEXTS] is
    unchanged. *)
Theorem extraction_exception_propagates (E : env) (msg : Message)
    (doc : Document) (st : gmap Z (list N)) (e : exn) :
  document msg = Some doc → declared_too_large doc = false →
  extract_text E (document_path E doc) = Raise e →
  let r := handle_document E msg st in
  outcome r = Raise e
  ∧ replies (trace_of r) = [MSG_EXTRACTING]
  ∧ texts_after r = st.
Proof.
  intros Hdoc Hgate Hex. cbv zeta.
  rewrite (handle_document_run E msg doc st Hdoc Hgate). cbv zeta.
  by rewrite Hex.
Qed.

Lemma MSG_TOO_LARGE_distinct :
  MSG_TOO_LARGE ≠ MSG_EXTRACTING ∧ MSG_TOO_LARGE ≠ MSG_NO_TEXT
  ∧ MSG_TOO_LARGE ≠ MSG_EXTRACTED.
Proof.
  repeat split; intros Heq; apply (f_equal (@length N)) in Heq;
    vm_compute in Heq; discriminate.
Qed.

(** The messages of [handle_document] once the size gate is passed. *)
Lemma handle_document_replies (E : env) (msg : Message) (doc : Document)
    (st : gmap Z (list N)) :
  document msg = Some doc → declared_too_large doc = false →
  let r := handle_document E msg st in
  replies (trace_of r) = [MSG_EXTRACTING]
  ∨ replies (trace_of r) = [MSG_EXTRACTING; MSG_NO_TEXT]
  ∨ replies (trace_of r) = [MSG_EXTRACTING; MSG_EXTRACTED].
Proof.
  intros Hdoc Hgate. cbv zeta.
  rewrite (handle_document_run E msg doc st Hdoc Hgate). cbv zeta.
  destruct (extract_text E (document_path E doc)) as [extracted|e].
  - destruct (len extracted <? 50)%Z.
    + right. left. reflexivity.
    + right. right. reflexivity.
  - left. reflexivity.
Qed.

(** C10: a document whose declared size is absent or zero is not stopped
    by the size gate, whatever the file is: the size message is not sent,
    and the handler downloads the file, announces the extraction and runs
    it. *)
Theorem undeclared_size_passes_gate (E : env) (msg : Message)
    (doc : Document) (st : gmap Z (list N)) :
  document msg = Some doc →
  (file_size doc = None ∨ file_size doc = Some 0%Z) →
  let r := handle_document E msg st in
  let path := document_path E doc in
  declared_too_large doc = false
  ∧ (MSG_TOO_LARGE ∉ replies (trace_of r))
  ∧ ∃ rest, trace_of r =
      [Download (file_id doc) path; Reply MSG_EXTRACTING; CallExtract path] ++ rest.
Proof.
  intros Hdoc Hsize. cbv zeta.
  assert (declared_too_large doc = false) as Hgate.
  { unfold declared_too_large. by destruct Hsize as [->| ->]. }
  destruct MSG_TOO_LARGE_distinct as (D1 & D2 & D3).
  split; [exact Hgate|]. split.
  - destruct (handle_document_replies E msg doc st Hdoc Hgate) as [->|[->| ->]];
      repeat (apply not_elem_of_cons; split; [assumption|]);
      apply not_elem_of_nil.
  - rewrite (handle_document_run E msg doc st Hdoc Hgate). cbv zeta.
    destruct (extract_text E (document_path E doc)) as [extracted|e].
    + destruct (len extracted <? 50)%Z; eexists; reflexivity.
    + exists []. reflexivity.
Qed.

(** ** Forgetting and asking *)

Lemma handle_buttons_forget (msg : Message) (st : gmap Z (list N)) :
  strip (or_empty (text msg)) = BTN_FORGET →
  handle_buttons msg st =
    (Ok tt, delete (from_user_id msg) st, [Reply MSG_FORGOTTEN]).
Proof.
  intros Hb. unfold handle_buttons. rewrite Hb.
  rewrite bool_decide_eq_true_2 by reflexivity. reflexivity.
Qed.

(** C7: after a text [A] is stored for a user, the forget request removes
    the entry; on a store without an entry for the user the request changes
    nothing and returns normally; and the next question of the user is sent
    to the backend as the open-domain prompt: the direct-answer instruction
    and the question, nothing of [A]. *)
Theorem forget_clears_session (E : env) (forget question : Message)
    (st : gmap Z (list N)) (A : str) :
  strip (or_empty (text forget)) = BTN_FORGET →
  from_user_id question = from_user_id forget →
  strip (or_empty (text question)) ≠ [] →
  let u := from_user_id forget in
  let r := handle_buttons forget (<[u := A]> st) in
  outcome r = Ok tt
  ∧ texts_after r !! u = None
  ∧ (st !! u = None →
       outcome (handle_buttons forget st) = Ok tt
       ∧ texts_after (handle_buttons forget st) = st)
  ∧ prompts (trace_of (handle_question E question (texts_after r))) =
      [OPEN_PREFIX ++ strip (or_empty (text question))].
Proof.
  intros Hb Hu Hq. cbv zeta. rewrite !handle_buttons_forget by done.
  unfold outcome, texts_after. cbn [fst snd].
  split; [done|]. split; [apply lookup_delete_eq|]. split.
  - intros Hnone. split; [done|]. by apply delete_id.
  - rewrite handle_question_prompts by done.
    unfold question_prompt. by rewrite Hu, lookup_delete_eq.
Qed.

(** C8: a failure of the backend call does not leave [handle_question]:
    the handler returns, the user gets the fixed retry message, the same
    for every exception, the exception is printed, the backend was called
    once, and [USER_TEXTS] is unchanged.  When the backend answers with no
    text, or with white space only, the user gets the fixed no-answer
    message, which is not empty. *)
Theorem backend_failure_contained (E : env) (msg : Message)
    (st : gmap Z (list N)) :
  strip (or_empty (text msg)) ≠ [] →
  let prompt :=
    question_prompt st (from_user_id msg) (strip (or_empty (text msg))) in
  let r := handle_question E msg st in
  (∀ e, generate_content E prompt = Raise e →
     outcome r = Ok tt
     ∧ replies (trace_of r) = [MSG_PREPARING; MSG_GEMINI_ERROR]
     ∧ ConsolePrint (utf8 "Gemini error:" ++ [SPACE] ++ exn_repr e) ∈ trace_of r
     ∧ prompts (trace_of r) = [prompt]
     ∧ texts_after r = st)
  ∧ (∀ answer, generate_content E prompt = Ok answer →
     strip (or_empty answer) = [] →
     outcome r = Ok tt
     ∧ replies (trace_of r) = [MSG_PREPARING; MSG_NO_ANSWER]
     ∧ MSG_NO_ANSWER ≠ []).
Proof.
  intros Hq. cbv zeta. rewrite handle_question_run by done. cbv zeta. split.
  - intros e ->. repeat split; try reflexivity.
    unfold trace_of. cbn [snd app].
    do 2 apply list_elem_of_further. apply list_elem_of_here.
  - intros answer -> ->. repeat split; try reflexivity.
    intros H. apply (f_equal (@length N)) in H. vm_compute in H. discriminate.
Qed.

(** ** The theorems on concrete requests *)

Example utf8_BTN_FORGET :
  BTN_FORGET = [0x641; 0x631; 0x627; 0x645; 0x648; 0x634; 0x6CC; 0x20; 0x1F5D1].
Proof. by vm_compute. Qed.

Example MSG_TOO_LARGE_20 :
  MSG_TOO_LARGE = utf8 "❌ فایل خیلی بزرگه. (حداکثر 20MB)".
Proof. by vm_compute. Qed.

Example normalize_persian_example :
  normalize_persian [32; 32; 0x64A; 32; 9; 32; 0x643; 10; 10; 10; 99; 10; 32; 10; 100; 32]
  = [0x6CC; 32; 0x6A9; 10; 99; 10; 32; 10; 100].
Proof. by vm_compute. Qed.

Ltac evaluate := vm_compute; first [reflexivity | discriminate].

(** User 7 has a stored text of 15001 characters and asks a question. *)
Lemma grounded_context_truncated_witness :
  (strip (or_empty (text question_msg)) ≠ []
   ∧ long_store !! from_user_id question_msg = Some (letters 15001)
   ∧ (len (letters 15001) > 15000)%Z)
  ∧ prompts (trace_of (handle_question plain_env question_msg long_store)) =
      [drop 1 GROUNDED_HEAD ++ letters 15000 ++ GROUNDED_MID ++ utf8 "what is it?"]
  ∧ len (context_of (letters 15001)) = 15000%Z.
Proof.
  assert (strip (or_empty (text question_msg)) ≠ []) as Hq by evaluate.
  assert (long_store !! from_user_id question_msg = Some (letters 15001))
    as Hst by apply lookup_singleton_eq.
  assert (len (letters 15001) > 15000)%Z as Hlen by evaluate.
  split; [repeat split; first [assumption | reflexivity]|].
  destruct (grounded_context_truncated plain_env question_msg long_store
              (letters 15001) Hq Hst) as (Hp & _ & Hc).
  destruct (Hc Hlen) as [Htake Hl]. split; [|exact Hl].
  rewrite Hp, Htake. evaluate.
Defined.

(** A text file of 49 characters is refused, one of 50 is stored; the same
    for the text read from a photo. *)
Lemma usability_threshold_witness :
  (declared_too_large notes_doc = false
   ∧ extract_text env49 (document_path env49 notes_doc) = Ok (letters 49)
   ∧ extract_text env50 (document_path env50 notes_doc) = Ok (letters 50)
   ∧ extract_text env49 (photo_path env49) = Ok (letters 49)
   ∧ extract_text env50 (photo_path env50) = Ok (letters 50))
  ∧ (replies (trace_of (handle_document env49 (document_message 7 notes_doc) ∅)) =
       [MSG_EXTRACTING; MSG_NO_TEXT]
     ∧ texts_after (handle_document env49 (document_message 7 notes_doc) ∅) = ∅)
  ∧ (replies (trace_of (handle_document env50 (document_message 7 notes_doc) ∅)) =
       [MSG_EXTRACTING; MSG_EXTRACTED]
     ∧ texts_after (handle_document env50 (document_message 7 notes_doc) ∅) !! 7%Z =
         Some (letters 50))
  ∧ (replies (trace_of (handle_photo env49 (photo_message 7) ∅)) =
       [MSG_OCR; MSG_NO_TEXT_PHOTO]
     ∧ texts_after (handle_photo env49 (photo_message 7) ∅) = ∅)
  ∧ (replies (trace_of (handle_photo env50 (photo_message 7) ∅)) =
       [MSG_OCR; MSG_EXTRACTED]
     ∧ texts_after (handle_photo env50 (photo_message 7) ∅) !! 7%Z =
         Some (letters 50)).
Proof.
  assert (declared_too_large notes_doc = false) as Hgate by evaluate.
  assert (extract_text env49 (document_path env49 notes_doc) = Ok (letters 49))
    as Hd49 by evaluate.
  assert (extract_text env50 (document_path env50 notes_doc) = Ok (letters 50))
    as Hd50 by evaluate.
  assert (extract_text env49 (photo_path env49) = Ok (letters 49)) as Hp49
    by evaluate.
  assert (extract_text env50 (photo_path env50) = Ok (letters 50)) as Hp50
    by evaluate.
  split; [repeat split; first [assumption | reflexivity]|].
  destruct (usability_threshold env49 (document_message 7 notes_doc) ∅) as [D49 _].
  destruct (usability_threshold env50 (document_message 7 notes_doc) ∅) as [D50 _].
  destruct (usability_threshold env49 (photo_message 7) ∅) as [_ Q49].
  destruct (usability_threshold env50 (photo_message 7) ∅) as [_ Q50].
  split; [|split; [|split]].
  - apply (D49 notes_doc (letters 49) eq_refl Hgate Hd49). evaluate.
  - apply (D50 notes_doc (letters 50) eq_refl Hgate Hd50). evaluate.
  - apply (Q49 (utf8 "photo-large") (letters 49) eq_refl Hp49). evaluate.
  - apply (Q50 (utf8 "photo-large") (letters 50) eq_refl Hp50). evaluate.
Defined.

(** User 7 has a stored text; a file and a photo with 49 characters of
    text leave it in place. *)
Lemma short_extraction_keeps_session_witness :
  ((len (letters 49) < 50)%Z
   ∧ declared_too_large unsized_doc = false
   ∧ extract_text env49 (document_path env49 unsized_doc) = Ok (letters 49)
   ∧ extract_text env49 (photo_path env49) = Ok (letters 49))
  ∧ (outcome (handle_document env49 (document_message 7 unsized_doc) old_store) = Ok tt
     ∧ (∀ user,
          texts_after (handle_document env49 (document_message 7 unsized_doc) old_store)
            !! user = old_store !! user)
     ∧ last (replies (trace_of
          (handle_document env49 (document_message 7 unsized_doc) old_store))) =
         Some MSG_NO_TEXT)
  ∧ (outcome (handle_photo env49 (photo_message 7) old_store) = Ok tt
     ∧ (∀ user,
          texts_after (handle_photo env49 (photo_message 7) old_store) !! user =
            old_store !! user)
     ∧ last (replies (trace_of (handle_photo env49 (photo_message 7) old_store))) =
         Some MSG_NO_TEXT_PHOTO).
Proof.
  assert (len (letters 49) < 50)%Z as Hlen by evaluate.
  assert (declared_too_large unsized_doc = false) as Hgate by evaluate.
  assert (extract_text env49 (document_path env49 unsized_doc) = Ok (letters 49))
    as Hd by evaluate.
  assert (extract_text env49 (photo_path env49) = Ok (letters 49)) as Hp
    by evaluate.
  split; [repeat split; first [assumption | reflexivity]|]. split.
  - exact (proj1 (short_extraction_keeps_session env49
                    (document_message 7 unsized_doc) old_store (letters 49) Hlen)
             unsized_doc eq_refl Hgate Hd).
  - exact (proj2 (short_extraction_keeps_session env49 (photo_message 7)
                    old_store (letters 49) Hlen)
             (utf8 "photo-large") eq_refl Hp).
Defined.

(** User 7 forgets a stored text and then asks a question. *)
Lemma forget_clears_session_witness :
  (strip (or_empty (text forget_msg)) = BTN_FORGET
   ∧ from_user_id question_msg = from_user_id forget_msg
   ∧ strip (or_empty (text question_msg)) ≠ []
   ∧ (∅ : gmap Z (list N)) !! 7%Z = None)
  ∧ texts_after (handle_buttons forget_msg (<[from_user_id forget_msg := letters 60]> ∅)) !! 7%Z = None
  ∧ texts_after (handle_buttons forget_msg ∅) = ∅
  ∧ prompts (trace_of (handle_question plain_env question_msg
       (texts_after (handle_buttons forget_msg (<[from_user_id forget_msg := letters 60]> ∅))))) =
      [OPEN_PREFIX ++ utf8 "what is it?"].
Proof.
  assert (strip (or_empty (text forget_msg)) = BTN_FORGET) as Hb by evaluate.
  assert (strip (or_empty (text question_msg)) ≠ []) as Hq by evaluate.
  split; [split; [exact Hb|split; [done|split; [exact Hq|apply lookup_empty]]]|].
  destruct (forget_clears_session plain_env forget_msg question_msg ∅
              (letters 60) Hb eq_refl Hq) as (_ & Hgone & Habsent & Hprompt).
  split; [exact Hgone|]. split; [exact (proj2 (Habsent (lookup_empty _)))|].
  rewrite Hprompt. evaluate.
Defined.

(** The backend refuses a question of user 7; then it answers with two
    spaces. *)
Lemma backend_failure_contained_witness :
  (strip (or_empty (text question_msg)) ≠ []
   ∧ generate_content failing_env (question_prompt ∅ 7 (utf8 "what is it?")) =
       Raise quota_exceeded
   ∧ generate_content blank_env (question_prompt ∅ 7 (utf8 "what is it?")) =
       Ok (Some (utf8 "  "))
   ∧ strip (or_empty (Some (utf8 "  "))) = [])
  ∧ (outcome (handle_question failing_env question_msg ∅) = Ok tt
     ∧ replies (trace_of (handle_question failing_env question_msg ∅)) =
         [MSG_PREPARING; MSG_GEMINI_ERROR]
     ∧ prompts (trace_of (handle_question failing_env question_msg ∅)) =
         [OPEN_PREFIX ++ utf8 "what is it?"])
  ∧ (outcome (handle_question blank_env question_msg ∅) = Ok tt
     ∧ replies (trace_of (handle_question blank_env question_msg ∅)) =
         [MSG_PREPARING; MSG_NO_ANSWER]).
Proof.
  assert (strip (or_empty (text question_msg)) ≠ []) as Hq by evaluate.
  assert (strip (or_empty (Some (utf8 "  "))) = []) as Hblank by evaluate.
  split; [repeat split; first [assumption | reflexivity]|].
  destruct (backend_failure_contained failing_env question_msg ∅ Hq) as [Hfail _].
  destruct (backend_failure_contained blank_env question_msg ∅ Hq) as [_ Hempty].
  destruct (Hfail quota_exceeded eq_refl) as (H1 & H2 & _ & H4 & _).
  destruct (Hempty (Some (utf8 "  ")) eq_refl Hblank) as (H5 & H6 & _).
  split; [split; [exact H1|split; [exact H2|]]|split; [exact H5|exact H6]].
  rewrite H4. evaluate.
Defined.

(** C9, as stated, fails: a PDF file that the library cannot open.  The
    exception leaves [handle_document], and the message for a failed
    extraction is not sent. *)
Lemma extraction_exception_not_caught :
  extract_text plain_env (document_path plain_env scan_doc) = Raise broken_file
  ∧ outcome (handle_document plain_env (document_message 7 scan_doc) ∅) =
      Raise broken_file
  ∧ outcome (handle_document plain_env (document_message 7 scan_doc) ∅) ≠ Ok tt
  ∧ MSG_NO_TEXT ∉
      replies (trace_of (handle_document plain_env (document_message 7 scan_doc) ∅)).
Proof.
  assert (replies (trace_of (handle_document plain_env (document_message 7 scan_doc) ∅))
          = [MSG_EXTRACTING]) as Hr by evaluate.
  split; [evaluate|]. split; [evaluate|]. split; [evaluate|].
  rewrite Hr. apply not_elem_of_cons. split; [|apply not_elem_of_nil].
  evaluate.
Qed.

Lemma extraction_exception_propagates_witness :
  (document (document_message 7 scan_doc) = Some scan_doc
   ∧ declared_too_large scan_doc = false
   ∧ extract_text plain_env (document_path plain_env scan_doc) = Raise broken_file)
  ∧ outcome (handle_document plain_env (document_message 7 scan_doc) old_store) =
      Raise broken_file
  ∧ replies (trace_of (handle_document plain_env (document_message 7 scan_doc) old_store)) =
      [MSG_EXTRACTING]
  ∧ texts_after (handle_document plain_env (document_message 7 scan_doc) old_store) =
      old_store.
Proof.
  assert (declared_too_large scan_doc = false) as Hgate by evaluate.
  assert (extract_text plain_env (document_path plain_env scan_doc) = Raise broken_file)
    as Hex by evaluate.
  split; [repeat split; first [assumption | reflexivity]|].
  exact (extraction_exception_propagates plain_env (document_message 7 scan_doc)
           scan_doc old_store broken_file eq_refl Hgate Hex).
Defined.

(** A document without a declared size, and one declared with size 0. *)
Lemma undeclared_size_passes_gate_witness :
  (file_size unsized_doc = None ∧ file_size zero_doc = Some 0%Z)
  ∧ (MSG_TOO_LARGE ∉
       replies (trace_of (handle_document env60 (document_message 7 unsized_doc) ∅)))
  ∧ (MSG_TOO_LARGE ∉
       replies (trace_of (handle_document env60 (document_message 7 zero_doc) ∅))).
Proof.
  split; [repeat split; first [assumption | reflexivity]|]. split.
  - exact (proj1 (proj2 (undeclared_size_passes_gate env60
                           (document_message 7 unsized_doc) unsized_doc ∅
                           eq_refl (or_introl eq_refl)))).
  - exact (proj1 (proj2 (undeclared_size_passes_gate env60
                           (document_message 7 zero_doc) zero_doc ∅
                           eq_refl (or_intror eq_refl)))).
Defined.

(** * Further properties *)

(** ** The normalizer *)

Lemma lstrip_split (s : str) :
  ∃ p, s = p ++ lstrip s ∧ Forall (fun c => isspace c = true) p.
Proof.
  induction s as [|c s (p & IH & Hp)]; simpl.
  - by exists [].
  - destruct (isspace c) eqn:Ec.
    + exists (c :: p). split; [simpl; by f_equal|by constructor].
    + by exists [].
Qed.

Lemma strip_split (s : str) :
  ∃ p q, s = p ++ strip s ++ q
         ∧ Forall (fun c => isspace c = true) p
         ∧ Forall (fun c => isspace c = true) q.
Proof.
  unfold strip, rstrip. destruct (lstrip_split s) as (p & Hp & Fp).
  destruct (lstrip_split (rev (lstrip s))) as (q & Hq & Fq).
  exists p, (rev q). split; [|split; [done|]].
  - rewrite <- rev_app_distr, <- Hq, rev_involutive. exact Hp.
  - apply Forall_forall. intros c Hc. rewrite Forall_forall in Fq.
    apply Fq. apply list_elem_of_In. apply list_elem_of_In in Hc.
    by apply in_rev.
Qed.

Lemma strip_starts (s : str) : starts_with isspace (strip s) = false.
Proof.
  unfold strip. pose proof (lstrip_head s) as H.
  destruct (lstrip s) as [|c s']; [done|].
  rewrite rstrip_cons by done. exact H.
Qed.

Lemma strip_ends (s : str) : starts_with isspace (rev (strip s)) = false.
Proof.
  pose proof (rstrip_last (lstrip s)) as H. fold (strip s) in H.
  by destruct (rev (strip s)).
Qed.

Lemma lstrip_fixed (s : str) : starts_with isspace s = false → lstrip s = s.
Proof. destruct s as [|c s]; [done|]. simpl. by intros ->. Qed.

Lemma strip_fixed (s : str) :
  starts_with isspace s = false → starts_with isspace (rev s) = false →
  strip s = s.
Proof.
  intros Hh Hl. unfold strip, rstrip.
  by rewrite (lstrip_fixed s), (lstrip_fixed (rev s)), rev_involutive.
Qed.

Lemma collapse_length (cls : char -> bool) (r : char) (s : str) :
  (length (collapse cls r s) <= length s)%nat.
Proof.
  induction s as [|c s IH]; simpl; [done|].
  destruct (cls c); [destruct (starts_with cls s)|]; simpl; lia.
Qed.

Lemma collapse_visible (cls : char -> bool) (r : char) (s : str) :
  (∀ c, cls c = true → isspace c = true) → isspace r = true →
  List.filter visible (collapse cls r s) = List.filter visible s.
Proof.
  intros Hcls Hr. induction s as [|c s IH]; [done|].
  cbn [collapse List.filter]. unfold visible at 2.
  destruct (cls c) eqn:Ec.
  - rewrite (Hcls c Ec). cbn [negb].
    destruct (starts_with cls s); [done|].
    cbn [List.filter]. unfold visible at 1. by rewrite Hr.
  - cbn [List.filter]. unfold visible at 1. by rewrite IH.
Qed.

Lemma filter_visible_spaces (s : str) :
  Forall (fun c => isspace c = true) s → List.filter visible s = [].
Proof.
  induction 1 as [|c s Hc Hs IH]; [done|].
  cbn [List.filter]. unfold visible at 1. by rewrite Hc.
Qed.

Lemma replace_visible (old new : char) (s : str) :
  isspace old = false → isspace new = false →
  List.filter visible (replace old new s) = replace old new (List.filter visible s).
Proof.
  intros Ho Hn. unfold replace, visible. induction s as [|c s IH]; [done|].
  cbn [List.map List.filter].
  destruct (N.eqb_spec c old) as [->|Hne].
  - rewrite Hn, Ho. cbn [negb List.map]. rewrite N.eqb_refl. by rewrite IH.
  - destruct (isspace c); cbn [negb List.map]; [done|].
    destruct (N.eqb_spec c old); [done|]. by rewrite IH.
Qed.

Lemma hspace_isspace (c : char) : hspace c = true → isspace c = true.
Proof.
  unfold hspace, SPACE, TAB.
  intros [H%N.eqb_eq|H%N.eqb_eq]%orb_prop; by subst.
Qed.

Lemma newline_isspace (c : char) : newline c = true → isspace c = true.
Proof. intros ->%newline_LF. done. Qed.

(** The output of the normalizer is in normal form. *)
Lemma normalize_persian_normalized (t : str) :
  normalized (normalize_persian t) = true.
Proof.
  unfold normalized.
  destruct (normalize_persian_hspace t) as [Hh Hs].
  pose proof (strip_starts (normalize_persian t)) as S1.
  pose proof (strip_ends (normalize_persian t)) as S2.
  rewrite normalize_persian_stripped in S1, S2.
  rewrite Hh, normalize_persian_newline, S1, S2. cbn [negb].
  rewrite !andb_true_r.
  apply forallb_forall. intros c Hc%list_elem_of_In.
  pose proof (normalize_persian_folded t) as Hf.
  rewrite Forall_forall in Hf, Hs.
  destruct (Hf c Hc) as [H1 H2]. specialize (Hs c Hc).
  destruct (N.eqb_spec c ARABIC_YEH); [done|].
  destruct (N.eqb_spec c ARABIC_KAF); [done|].
  destruct (N.eqb_spec c TAB) as [->|]; [|done].
  by specialize (Hs eq_refl).
Qed.

(** A text in normal form is not changed by the normalizer. *)
Lemma normalized_fixed (t : str) :
  normalized t = true → normalize_persian t = t.
Proof.
  unfold normalized.
  intros [[[[Hall Hh]%andb_prop Hn]%andb_prop Hs]%andb_prop He]%andb_prop.
  apply negb_true_iff in Hs, He.
  rewrite forallb_forall in Hall.
  rewrite normalize_persian_collapse.
  rewrite (replace_id ARABIC_YEH), (replace_id ARABIC_KAF).
  - rewrite (collapse_fixed hspace), (collapse_fixed newline); try done.
    + by apply strip_fixed.
    + apply Forall_forall. intros c _. apply newline_LF.
    + apply Forall_forall. intros c Hc%list_elem_of_In%Hall Hsp.
      apply andb_prop in Hc as [_ Htab]. apply negb_true_iff in Htab.
      unfold hspace in Hsp. rewrite Htab, orb_false_r in Hsp.
      by apply N.eqb_eq.
  - apply Forall_forall. intros c Hc%list_elem_of_In%Hall.
    apply andb_prop in Hc as [[_ Hk]%andb_prop _].
    apply negb_true_iff in Hk. by apply N.eqb_neq.
  - apply Forall_forall. intros c Hc%list_elem_of_In%Hall.
    apply andb_prop in Hc as [[Hy _]%andb_prop _].
    apply negb_true_iff in Hy. by apply N.eqb_neq.
Qed.

(** X1: a normalized text neither starts nor ends with a white-space
    character (any character [str.isspace] accepts). *)
Theorem normalize_persian_no_surrounding_space (t : str) :
  (∀ c, head (normalize_persian t) = Some c → isspace c = false)
  ∧ (∀ c, last (normalize_persian t) = Some c → isspace c = false).
Proof.
  pose proof (strip_starts (normalize_persian t)) as Hs.
  pose proof (strip_ends (normalize_persian t)) as He.
  rewrite normalize_persian_stripped in Hs, He. split.
  - intros c Hc. destruct (normalize_persian t) as [|d s]; [done|].
    by injection Hc as ->.
  - intros c Hc. rewrite <- (rev_involutive (normalize_persian t)) in Hc.
    destruct (rev (normalize_persian t)) as [|d s]; [done|].
    simpl in Hc. rewrite last_snoc in Hc. by injection Hc as ->.
Qed.

(** X2: the Arabic letters yeh (U+064A) and kaf (U+0643) do not occur in a
    normalized text, whatever the input. *)
Theorem normalize_persian_letters_folded (t : str) :
  (ARABIC_YEH ∉ normalize_persian t) ∧ (ARABIC_KAF ∉ normalize_persian t).
Proof.
  pose proof (normalize_persian_folded t) as Hf. rewrite Forall_forall in Hf.
  split; intros Hin; destruct (Hf _ Hin) as [H1 H2]; done.
Qed.

(** X3: a normalized text holds no tab and no two blanks in a row: runs of
    spaces and tabs have become single spaces. *)
Theorem normalize_persian_single_spaces (t : str) :
  (TAB ∉ normalize_persian t)
  ∧ ∀ before after, normalize_persian t ≠ before ++ [SPACE; SPACE] ++ after.
Proof.
  destruct (normalize_persian_hspace t) as [Ha Hf]. split.
  - intros Hin. rewrite Forall_forall in Hf. by specialize (Hf _ Hin eq_refl).
  - intros before after H. rewrite H in Ha.
    by apply no_adjacent_app_r in Ha.
Qed.

(** X4: normalizing never makes a text longer. *)
Theorem normalize_persian_length (t : str) :
  (len (normalize_persian t) <= len t)%Z.
Proof.
  rewrite normalize_persian_collapse. unfold len.
  destruct (strip_split (collapse newline LF (collapse hspace SPACE
    (replace ARABIC_KAF KEHEH (replace ARABIC_YEH FARSI_YEH t)))))
    as (p & q & Hs & _).
  apply (f_equal (@length N)) in Hs. rewrite !length_app in Hs.
  pose proof (collapse_length newline LF (collapse hspace SPACE
    (replace ARABIC_KAF KEHEH (replace ARABIC_YEH FARSI_YEH t)))) as H1.
  pose proof (collapse_length hspace SPACE
    (replace ARABIC_KAF KEHEH (replace ARABIC_YEH FARSI_YEH t))) as H2.
  unfold replace in *. rewrite !length_map in H2. lia.
Qed.

Lemma normalize_persian_visible (t : str) :
  List.filter visible (normalize_persian t) =
    replace ARABIC_KAF KEHEH (replace ARABIC_YEH FARSI_YEH (List.filter visible t)).
Proof.
  rewrite normalize_persian_collapse.
  set (u := collapse newline LF (collapse hspace SPACE
    (replace ARABIC_KAF KEHEH (replace ARABIC_YEH FARSI_YEH t)))).
  assert (List.filter visible (strip u) = List.filter visible u) as ->.
  { destruct (strip_split u) as (p & q & Hs & Fp & Fq). rewrite Hs at 2.
    rewrite !List.filter_app, (filter_visible_spaces p), (filter_visible_spaces q);
      [|done|done].
    by rewrite app_nil_r. }
  unfold u. rewrite collapse_visible, collapse_visible;
    [|apply hspace_isspace|done|apply newline_isspace|done].
  by rewrite !replace_visible.
Qed.

(** X5: the normalizer only touches white space and the two letters: the
    characters of the output that are not white space are those of the
    input, in the same order, with yeh and kaf folded. *)
Theorem normalize_persian_keeps_visible (t : str) :
  List.filter visible (normalize_persian t) =
    replace ARABIC_KAF KEHEH (replace ARABIC_YEH FARSI_YEH (List.filter visible t))
  ∧ length (List.filter visible (normalize_persian t)) =
      length (List.filter visible t).
Proof.
  rewrite normalize_persian_visible. split; [done|].
  unfold replace. by rewrite !length_map.
Qed.

(** X6: the normalizer is the identity exactly on the texts in normal
    form. *)
Theorem normalize_persian_fixed_iff (t : str) :
  normalize_persian t = t ↔ normalized t = true.
Proof.
  split.
  - intros <-. apply normalize_persian_normalized.
  - apply normalized_fixed.
Qed.

Lemma filter_visible_nil (s : str) :
  List.filter visible s = [] → Forall (fun c => isspace c = true) s.
Proof.
  induction s as [|c s IH]; [done|]. cbn [List.filter]. unfold visible at 1.
  destruct (isspace c) eqn:Ec; cbn [negb]; [|done].
  intros H. constructor; auto.
Qed.

(** X7: the normalizer returns the empty text exactly when the input has
    no visible character: it is empty or made of white space only. *)
Theorem normalize_persian_empty_iff (t : str) :
  normalize_persian t = [] ↔ Forall (fun c => isspace c = true) t.
Proof.
  pose proof (normalize_persian_visible t) as Hv. split.
  - intros H. rewrite H in Hv. apply filter_visible_nil.
    unfold replace in Hv. symmetry in Hv.
    apply map_eq_nil in Hv. by apply map_eq_nil in Hv.
  - intros Hsp. rewrite (filter_visible_spaces t Hsp) in Hv.
    pose proof (strip_starts (normalize_persian t)) as Hs.
    rewrite normalize_persian_stripped in Hs.
    destruct (normalize_persian t) as [|c s]; [done|].
    simpl in Hs. cbn [List.filter] in Hv. unfold visible at 1 in Hv.
    rewrite Hs in Hv. done.
Qed.

Lemma normalize_persian_empty_iff_witness :
  Forall (fun c => isspace c = true) [SPACE; TAB; LF; 0x3000]
  ∧ normalize_persian [SPACE; TAB; LF; 0x3000] = [].
Proof.
  assert (Forall (fun c => isspace c = true) [SPACE; TAB; LF; 0x3000]) as H
    by (repeat constructor).
  split; [exact H|]. exact (proj2 (normalize_persian_empty_iff _) H).
Defined.

(** ** File names *)

Lemma collapse_nonempty (cls : char -> bool) (r : char) (s : str) :
  s ≠ [] → collapse cls r s ≠ [].
Proof.
  induction s as [|c s IH]; [done|]. intros _. simpl.
  destruct (cls c); [|done].
  destruct s as [|d s]; [done|]. simpl in *.
  destruct (cls d); [|done]. by apply IH.
Qed.

Lemma collapse_outside (cls : char -> bool) (r : char) (s : str) :
  cls r = false → Forall (fun c => cls c = false) (collapse cls r s).
Proof.
  intros Hr. pose proof (collapse_class cls r s) as H.
  eapply Forall_impl; [exact H|]. intros c Hc. simpl in Hc.
  destruct (cls c) eqn:Ec; [|done]. rewrite (Hc eq_refl) in Ec. congruence.
Qed.

Lemma collapse_none (cls : char -> bool) (r : char) (s : str) :
  Forall (fun c => cls c = false) s → collapse cls r s = s.
Proof.
  induction 1 as [|c s Hc Hs IH]; [done|]. simpl. by rewrite Hc, IH.
Qed.

Lemma sanitize_collapse (name : str) :
  re_sub_run unsafe_name_char 1 (utf8 "_") name = collapse unsafe_name_char 0x5F name.
Proof. change (utf8 "_") with [0x5F]. apply re_sub_plus_collapse. Qed.

(** X8: the download path is [downloads/<uid>_<name>] with a name that is
    not empty and made of the characters [a-zA-Z0-9_.-] and U+0600..U+06FF
    only; in particular the name holds no slash, whatever name the sender
    gave the file. *)
Theorem safe_unique_path_shape (E : env) (original_name : option (list N))
    (suffix : str) :
  ∃ name,
    safe_unique_path E original_name suffix =
      utf8 "downloads/" ++ uuid4_hex10 E ++ utf8 "_" ++ name
    ∧ name ≠ []
    ∧ Forall (fun c => safe_name_char c = true) name
    ∧ 0x2F ∉ name.
Proof.
  unfold safe_unique_path. rewrite sanitize_collapse.
  set (raw := match original_name with Some (c :: n) => c :: n | _ => _ end).
  assert (raw ≠ []) as Hraw.
  { unfold raw. destruct original_name as [[|c n]|]; done. }
  exists (collapse unsafe_name_char 0x5F raw).
  assert (Forall (fun c => safe_name_char c = true)
            (collapse unsafe_name_char 0x5F raw)) as Hsafe.
  { eapply Forall_impl; [apply collapse_outside; done|].
    intros c Hc. simpl in Hc. unfold unsafe_name_char in Hc.
    by apply negb_false_iff in Hc. }
  split; [|split; [by apply collapse_nonempty|split; [exact Hsafe|]]].
  - change (utf8 "downloads/") with (DOWNLOAD_DIR ++ utf8 "/").
    by rewrite <- !app_assoc.
  - intros Hin. rewrite Forall_forall in Hsafe. by specialize (Hsafe _ Hin).
Qed.

(** X9: a file name that is not empty and has safe characters only is kept
    as it is in the download path. *)
Theorem safe_unique_path_keeps_safe_name (E : env) (name suffix : str) :
  name ≠ [] → Forall (fun c => safe_name_char c = true) name →
  safe_unique_path E (Some name) suffix =
    utf8 "downloads/" ++ uuid4_hex10 E ++ utf8 "_" ++ name.
Proof.
  intros Hne Hsafe. unfold safe_unique_path. rewrite sanitize_collapse.
  destruct name as [|c n]; [done|]. rewrite collapse_none.
  - change (utf8 "downloads/") with (DOWNLOAD_DIR ++ utf8 "/").
    by rewrite <- !app_assoc.
  - eapply Forall_impl; [exact Hsafe|]. intros d Hd. simpl in Hd.
    unfold unsafe_name_char. by rewrite Hd.
Qed.

Lemma safe_unique_path_keeps_safe_name_witness :
  (utf8 "notes-2.txt" ≠ []
   ∧ Forall (fun c => safe_name_char c = true) (utf8 "notes-2.txt"))
  ∧ safe_unique_path plain_env (Some (utf8 "notes-2.txt")) (utf8 ".txt") =
      utf8 "downloads/" ++ uuid4_hex10 plain_env ++ utf8 "_" ++ utf8 "notes-2.txt".
Proof.
  assert (utf8 "notes-2.txt" ≠ []) as Hne by evaluate.
  assert (Forall (fun c => safe_name_char c = true) (utf8 "notes-2.txt")) as Hs.
  { apply Forall_forall. intros c Hc. apply list_elem_of_In in Hc.
    vm_compute in Hc. intuition (subst; reflexivity). }
  split; [by split|].
  exact (safe_unique_path_keeps_safe_name plain_env _ (utf8 ".txt") Hne Hs).
Defined.

(** ** Extraction and the backend call *)

Lemma extract_text_ok (E : env) (path t : str) :
  extract_text E path = Ok t → ∃ raw, t = normalize_persian raw.
Proof.
  unfold extract_text.
  repeat case_bool_decide;
    try (destruct (pdf_page_texts E path));
    try (destruct (image_to_string E path));
    try (destruct (docx_paragraph_texts E path));
    try (destruct (read_text E path)); intros [= <-]; by eexists.
Qed.

(** X10: [extract_text] returns normalized text only: whatever the file
    holds, a returned text is in normal form and the normalizer leaves it
    as it is. *)
Theorem extract_text_normalized (E : env) (path : str) :
  match extract_text E path with
  | Ok t => normalized t = true ∧ normalize_persian t = t
  | Raise _ => True
  end.
Proof.
  assert (∀ raw, normalized (normalize_persian raw) = true
                 ∧ normalize_persian (normalize_persian raw) = normalize_persian raw)
    as Hn.
  { intros raw. split; [apply normalize_persian_normalized|].
    apply normalized_fixed, normalize_persian_normalized. }
  unfold extract_text.
  repeat case_bool_decide;
    try (destruct (pdf_page_texts E path));
    try (destruct (image_to_string E path));
    try (destruct (docx_paragraph_texts E path));
    try (destruct (read_text E path)); try exact I; apply Hn.
Qed.

(** X11: [extract_text] raises only what a library call raised: when it
    raises [e], opening the PDF, the image, the Word file or the text file
    at that path raised [e]. *)
Theorem extract_text_raises_from_library (E : env) (path : str) :
  match extract_text E path with
  | Ok _ => True
  | Raise e =>
      pdf_page_texts E path = Raise e ∨ image_to_string E path = Raise e
      ∨ docx_paragraph_texts E path = Raise e ∨ read_text E path = Raise e
  end.
Proof.
  unfold extract_text.
  repeat case_bool_decide;
    try (destruct (pdf_page_texts E path) eqn:?);
    try (destruct (image_to_string E path) eqn:?);
    try (destruct (docx_paragraph_texts E path) eqn:?);
    try (destruct (read_text E path) eqn:?); try exact I; auto.
Qed.

(** A file whose extension is none of the seven known ones gives the empty
    text: no library is asked, nothing is raised. *)
Lemma extract_text_other (E : env) (path : str) :
  lower E (snd (splitext E path)) ∉
    [utf8 ".pdf"; utf8 ".png"; utf8 ".jpg"; utf8 ".jpeg"; utf8 ".webp";
     utf8 ".docx"; utf8 ".txt"] →
  extract_text E path = Ok [].
Proof.
  intros Hext. unfold extract_text.
  apply not_elem_of_cons in Hext as [Hpdf Hext].
  apply not_elem_of_cons in Hext as [Hpng Hext].
  apply not_elem_of_cons in Hext as [Hjpg Hext].
  apply not_elem_of_cons in Hext as [Hjpeg Hext].
  apply not_elem_of_cons in Hext as [Hwebp Hext].
  apply not_elem_of_cons in Hext as [Hdocx Hext].
  apply not_elem_of_cons in Hext as [Htxt Hext].
  assert (lower E (snd (splitext E path)) ∉
            [utf8 ".png"; utf8 ".jpg"; utf8 ".jpeg"; utf8 ".webp"]) as Himg.
  { repeat (apply not_elem_of_cons; split; [assumption|]). apply not_elem_of_nil. }
  rewrite (bool_decide_eq_false_2 _ Hpdf), (bool_decide_eq_false_2 _ Himg),
    (bool_decide_eq_false_2 _ Hdocx), (bool_decide_eq_false_2 _ Htxt).
  reflexivity.
Qed.

(** X13: [gemini_answer] returns the backend's text without white space
    around it, the empty text when the backend has none, and raises
    exactly what the backend call raised. *)
Theorem gemini_answer_stripped (E : env) (prompt : str) :
  match gemini_answer E prompt with
  | Ok answer =>
      strip answer = answer
      ∧ ∃ text, generate_content E prompt = Ok text
                ∧ answer = strip (or_empty text)
                ∧ (text = None → answer = [])
  | Raise e => generate_content E prompt = Raise e
  end.
Proof.
  unfold gemini_answer. destruct (generate_content E prompt) as [text|e]; [|done].
  split; [apply strip_idemp|]. exists text. split; [done|]. split; [done|].
  by intros ->.
Qed.

(** ** The handlers, case by case *)

Lemma handle_document_skip (E : env) (msg : Message) (st : gmap Z (list N)) :
  document msg = None → handle_document E msg st = (Ok tt, st, []).
Proof. intros H. unfold handle_document. by rewrite H. Qed.

Lemma handle_document_oversize (E : env) (msg : Message) (doc : Document)
    (st : gmap Z (list N)) :
  document msg = Some doc → declared_too_large doc = true →
  handle_document E msg st = (Ok tt, st, [Reply MSG_TOO_LARGE]).
Proof. intros H1 H2. unfold handle_document. by rewrite H1, H2. Qed.

Lemma handle_photo_skip (E : env) (msg : Message) (st : gmap Z (list N)) :
  photo msg = [] → handle_photo E msg st = (Ok tt, st, []).
Proof. intros H. unfold handle_photo. by rewrite H. Qed.

Lemma handle_question_skip (E : env) (msg : Message) (st : gmap Z (list N)) :
  strip (or_empty (text msg)) = [] → handle_question E msg st = (Ok tt, st, []).
Proof. intros H. unfold handle_question. by rewrite H. Qed.

Lemma last_None_nil {A : Type} (l : list A) : last l = None → l = [].
Proof. destruct l as [|a l] using rev_ind; [done|]. by rewrite last_snoc. Qed.

(** What a document or a photo can do to [USER_TEXTS]: nothing, or set the
    sender's entry to a normalized text of at least 50 characters. *)
Lemma handle_document_store (E : env) (msg : Message) (st : gmap Z (list N)) :
  texts_after (handle_document E msg st) = st
  ∨ ∃ raw, (50 <= len (normalize_persian raw))%Z
      ∧ texts_after (handle_document E msg st) =
          <[from_user_id msg := normalize_persian raw]> st.
Proof.
  destruct (document msg) as [doc|] eqn:Hdoc;
    [|left; by rewrite handle_document_skip].
  destruct (declared_too_large doc) eqn:Hgate;
    [left; by rewrite (handle_document_oversize E msg doc)|].
  rewrite (handle_document_run E msg doc st Hdoc Hgate). cbv zeta.
  destruct (extract_text E (document_path E doc)) as [t|e] eqn:Hex; [|by left].
  destruct (extract_text_ok _ _ _ Hex) as [raw ->].
  destruct (Z.ltb_spec (len (normalize_persian raw)) 50); [by left|].
  right. by exists raw.
Qed.

Lemma handle_photo_store (E : env) (msg : Message) (st : gmap Z (list N)) :
  texts_after (handle_photo E msg st) = st
  ∨ ∃ raw, (50 <= len (normalize_persian raw))%Z
      ∧ texts_after (handle_photo E msg st) =
          <[from_user_id msg := normalize_persian raw]> st.
Proof.
  destruct (last (photo msg)) as [largest|] eqn:Hlast.
  - rewrite (handle_photo_run E msg largest st Hlast). cbv zeta.
    destruct (extract_text E (photo_path E)) as [t|e] eqn:Hex; [|by left].
    destruct (extract_text_ok _ _ _ Hex) as [raw ->].
    destruct (Z.ltb_spec (len (normalize_persian raw)) 50); [by left|].
    right. by exists raw.
  - left. apply last_None_nil in Hlast. by rewrite handle_photo_skip.
Qed.

Lemma handle_buttons_store (msg : Message) (st : gmap Z (list N)) :
  texts_after (handle_buttons msg st) = st
  ∨ (strip (or_empty (text msg)) = BTN_FORGET
     ∧ texts_after (handle_buttons msg st) = delete (from_user_id msg) st).
Proof.
  destruct (decide (strip (or_empty (text msg)) = BTN_FORGET)) as [Hb|Hb].
  - right. split; [done|]. by rewrite handle_buttons_forget.
  - left. unfold handle_buttons. rewrite (bool_decide_eq_false_2 _ Hb).
    by case_bool_decide.
Qed.

Lemma handle_question_store (E : env) (msg : Message) (st : gmap Z (list N)) :
  outcome (handle_question E msg st) = Ok tt
  ∧ texts_after (handle_question E msg st) = st.
Proof.
  destruct (decide (strip (or_empty (text msg)) = [])) as [Hq|Hq].
  - by rewrite handle_question_skip.
  - rewrite handle_question_run by done. cbv zeta.
    destruct (generate_content E _) as [t|e]; [|done].
    by destruct (strip (or_empty t)).
Qed.

(** X14: a question never changes [USER_TEXTS] and never makes the handler
    raise, whatever the message, the stored texts and the backend do. *)
Theorem handle_question_returns_unchanged (E : env) (msg : Message)
    (st : gmap Z (list N)) :
  outcome (handle_question E msg st) = Ok tt
  ∧ texts_after (handle_question E msg st) = st.
Proof.
  destruct (decide (strip (or_empty (text msg)) = [])) as [Hblank|Hq].
  - rewrite (handle_question_skip E msg st Hblank). by split.
  - rewrite (handle_question_run E msg st Hq). cbv zeta.
    destruct (generate_content E _) as [answer|e].
    + destruct (strip (or_empty answer)); by split.
    + by split.
Qed.



(** X16: what a question does depends on the stored text of the asking
    user only: two stores that agree on that user give the same prompt and
    the same messages. *)
Theorem handle_question_own_text_only (E : env) (msg : Message)
    (st1 st2 : gmap Z (list N)) :
  st1 !! from_user_id msg = st2 !! from_user_id msg →
  trace_of (handle_question E msg st1) = trace_of (handle_question E msg st2).
Proof.
  intros Hst.
  destruct (decide (strip (or_empty (text msg)) = [])) as [Hq|Hq].
  - by rewrite !handle_question_skip.
  - rewrite !handle_question_run by done. cbv zeta.
    unfold question_prompt. rewrite Hst.
    destruct (generate_content E _) as [t|e]; [|done].
    by destruct (strip (or_empty t)).
Qed.

Lemma handle_question_own_text_only_witness :
  (old_store !! from_user_id question_msg =
     (<[8%Z := letters 50]> old_store) !! from_user_id question_msg)
  ∧ trace_of (handle_question plain_env question_msg old_store) =
      trace_of (handle_question plain_env question_msg (<[8%Z := letters 50]> old_store)).
Proof.
  assert (old_store !! from_user_id question_msg =
            (<[8%Z := letters 50]> old_store) !! from_user_id question_msg) as H.
  { symmetry. by apply lookup_insert_ne. }
  split; [exact H|]. exact (handle_question_own_text_only _ _ _ _ H).
Defined.

(** X17: the size gate closes exactly on a declared size above 20 MiB, and
    then the handler only sends the size message: no download, no
    extraction, [USER_TEXTS] unchanged. *)
Theorem oversized_document_rejected (E : env) (msg : Message) (doc : Document)
    (st : gmap Z (list N)) :
  (declared_too_large doc = true ↔
     ∃ size, file_size doc = Some size ∧ (size > 20 * 1024 * 1024)%Z)
  ∧ (document msg = Some doc → declared_too_large doc = true →
     handle_document E msg st = (Ok tt, st, [Reply MSG_TOO_LARGE])).
Proof.
  split; [|apply handle_document_oversize].
  unfold declared_too_large, file_too_large, MAX_FILE_MB.
  destruct (file_size doc) as [size|]; split.
  - intros [H1 H2]%andb_prop. exists size. split; [done|].
    apply Z.gtb_gt in H2. lia.
  - intros (n & [= <-] & Hn). apply andb_true_intro. split.
    + apply negb_true_iff, Z.eqb_neq. lia.
    + apply Z.gtb_gt. lia.
  - done.
  - by intros (n & Hn & _).
Qed.

Lemma oversized_document_rejected_witness :
  (document (document_message 7 (example_document (utf8 "big.pdf") (Some 20971521%Z))) =
     Some (example_document (utf8 "big.pdf") (Some 20971521%Z))
   ∧ declared_too_large (example_document (utf8 "big.pdf") (Some 20971521%Z)) = true)
  ∧ handle_document plain_env
      (document_message 7 (example_document (utf8 "big.pdf") (Some 20971521%Z)))
      old_store = (Ok tt, old_store, [Reply MSG_TOO_LARGE]).
Proof.
  assert (declared_too_large (example_document (utf8 "big.pdf") (Some 20971521%Z))
          = true) as Hgate by evaluate.
  split; [by split|].
  exact (proj2 (oversized_document_rejected plain_env
                  (document_message 7 (example_document (utf8 "big.pdf")
                                         (Some 20971521%Z)))
                  (example_document (utf8 "big.pdf") (Some 20971521%Z)) old_store)
           eq_refl Hgate).
Defined.

(** X18: a document or a photo of one user never changes the stored text
    of another user. *)
Theorem upload_other_users_untouched (E : env) (msg : Message)
    (st : gmap Z (list N)) (other : Z) :
  other ≠ from_user_id msg →
  texts_after (handle_document E msg st) !! other = st !! other
  ∧ texts_after (handle_photo E msg st) !! other = st !! other.
Proof.
  intros Hne. split.
  - destruct (handle_document_store E msg st) as [->|(raw & _ & ->)]; [done|].
    by apply lookup_insert_ne.
  - destruct (handle_photo_store E msg st) as [->|(raw & _ & ->)]; [done|].
    by apply lookup_insert_ne.
Qed.

Lemma upload_other_users_untouched_witness :
  (8%Z ≠ from_user_id (document_message 7 notes_doc)
   ∧ 8%Z ≠ from_user_id (photo_message 7))
  ∧ texts_after (handle_document env60 (document_message 7 notes_doc)
                   {[ 8%Z := letters 50 ]}) !! 8%Z = Some (letters 50)
  ∧ texts_after (handle_photo env60 (photo_message 7)
                   {[ 8%Z := letters 50 ]}) !! 8%Z = Some (letters 50).
Proof.
  assert (8%Z ≠ from_user_id (document_message 7 notes_doc)) as H1 by done.
  assert (8%Z ≠ from_user_id (photo_message 7)) as H2 by done.
  split; [by split|].
  destruct (upload_other_users_untouched env60 (document_message 7 notes_doc)
              {[ 8%Z := letters 50 ]} 8%Z H1) as [Hd _].
  destruct (upload_other_users_untouched env60 (photo_message 7)
              {[ 8%Z := letters 50 ]} 8%Z H2) as [_ Hp].
  rewrite Hd, Hp. split; apply lookup_singleton_eq.
Defined.

Lemma handle_document_texts (E : env) (msg : Message) (doc : Document)
    (st : gmap Z (list N)) (t : str) :
  document msg = Some doc → declared_too_large doc = false →
  extract_text E (document_path E doc) = Ok t →
  texts_after (handle_document E msg st) =
    if (len t <? 50)%Z then st else <[from_user_id msg := t]> st.
Proof.
  intros Hdoc Hgate Hex.
  rewrite (handle_document_run E msg doc st Hdoc Hgate). cbv zeta. rewrite Hex.
  by destruct (len t <? 50)%Z.
Qed.

(** X12: a document whose extension is none of .pdf, .png, .jpg, .jpeg,
    .webp, .docx, .txt is not an error: extraction gives the empty text
    without asking a library, and the handler reports a failed extraction
    and leaves [USER_TEXTS] as it is. *)
Theorem unknown_format_reported (E : env) (msg : Message) (doc : Document)
    (st : gmap Z (list N)) :
  document msg = Some doc → declared_too_large doc = false →
  lower E (snd (splitext E (document_path E doc))) ∉
    [utf8 ".pdf"; utf8 ".png"; utf8 ".jpg"; utf8 ".jpeg"; utf8 ".webp";
     utf8 ".docx"; utf8 ".txt"] →
  extract_text E (document_path E doc) = Ok []
  ∧ outcome (handle_document E msg st) = Ok tt
  ∧ texts_after (handle_document E msg st) = st
  ∧ replies (trace_of (handle_document E msg st)) = [MSG_EXTRACTING; MSG_NO_TEXT].
Proof.
  intros Hdoc Hgate Hext. pose proof (extract_text_other E _ Hext) as Hex.
  split; [exact Hex|].
  rewrite (handle_document_run E msg doc st Hdoc Hgate). cbv zeta.
  by rewrite Hex.
Qed.

Lemma unknown_format_reported_witness :
  (document (document_message 7 (example_document (utf8 "data.bin") None)) =
     Some (example_document (utf8 "data.bin") None)
   ∧ declared_too_large (example_document (utf8 "data.bin") None) = false
   ∧ lower env60 (snd (splitext env60
       (document_path env60 (example_document (utf8 "data.bin") None)))) ∉
       [utf8 ".pdf"; utf8 ".png"; utf8 ".jpg"; utf8 ".jpeg"; utf8 ".webp";
        utf8 ".docx"; utf8 ".txt"])
  ∧ texts_after (handle_document env60
       (document_message 7 (example_document (utf8 "data.bin") None)) old_store) =
      old_store
  ∧ replies (trace_of (handle_document env60
       (document_message 7 (example_document (utf8 "data.bin") None)) old_store)) =
      [MSG_EXTRACTING; MSG_NO_TEXT].
Proof.
  assert (declared_too_large (example_document (utf8 "data.bin") None) = false)
    as Hgate by evaluate.
  assert (lower env60 (snd (splitext env60
       (document_path env60 (example_document (utf8 "data.bin") None)))) ∉
       [utf8 ".pdf"; utf8 ".png"; utf8 ".jpg"; utf8 ".jpeg"; utf8 ".webp";
        utf8 ".docx"; utf8 ".txt"]) as Hext.
  { repeat (apply not_elem_of_cons; split; [evaluate|]). apply not_elem_of_nil. }
  split; [exact (conj eq_refl (conj Hgate Hext))|].
  destruct (unknown_format_reported env60
              (document_message 7 (example_document (utf8 "data.bin") None))
              (example_document (utf8 "data.bin") None) old_store
              eq_refl Hgate Hext) as (_ & _ & H3 & H4).
  exact (conj H3 H4).
Defined.

(** X19: a user has one stored text at a time: after a first document is
    stored, a second document of the same user replaces it when its text
    has at least 50 characters, and leaves it in place when it is
    shorter. *)
Theorem session_replaced (E1 E2 : env) (msg1 msg2 : Message)
    (doc1 doc2 : Document) (A B : str) (st : gmap Z (list N)) :
  from_user_id msg2 = from_user_id msg1 →
  document msg1 = Some doc1 → declared_too_large doc1 = false →
  extract_text E1 (document_path E1 doc1) = Ok A → (50 <= len A)%Z →
  document msg2 = Some doc2 → declared_too_large doc2 = false →
  extract_text E2 (document_path E2 doc2) = Ok B →
  texts_after (handle_document E1 msg1 st) !! from_user_id msg1 = Some A
  ∧ texts_after (handle_document E2 msg2 (texts_after (handle_document E1 msg1 st)))
      !! from_user_id msg1 = Some (if (len B <? 50)%Z then A else B).
Proof.
  intros Hu Hd1 Hg1 He1 HA Hd2 Hg2 He2.
  rewrite (handle_document_texts E2 msg2 doc2 _ B Hd2 Hg2 He2).
  rewrite (handle_document_texts E1 msg1 doc1 _ A Hd1 Hg1 He1).
  assert ((len A <? 50)%Z = false) as -> by (apply Z.ltb_ge; lia).
  split; [apply lookup_insert_eq|].
  destruct (len B <? 50)%Z; rewrite ?Hu; apply lookup_insert_eq.
Qed.

Lemma session_replaced_witness :
  (declared_too_large notes_doc = false
   ∧ extract_text env60 (document_path env60 notes_doc) = Ok (letters 60)
   ∧ (50 <= len (letters 60))%Z
   ∧ extract_text env50 (document_path env50 notes_doc) = Ok (letters 50)
   ∧ extract_text env49 (document_path env49 notes_doc) = Ok (letters 49))
  ∧ texts_after (handle_document env50 (document_message 7 notes_doc)
       (texts_after (handle_document env60 (document_message 7 notes_doc) ∅)))
      !! 7%Z = Some (letters 50)
  ∧ texts_after (handle_document env49 (document_message 7 notes_doc)
       (texts_after (handle_document env60 (document_message 7 notes_doc) ∅)))
      !! 7%Z = Some (letters 60).
Proof.
  assert (declared_too_large notes_doc = false) as Hg by evaluate.
  assert (extract_text env60 (document_path env60 notes_doc) = Ok (letters 60))
    as H60 by evaluate.
  assert (50 <= len (letters 60))%Z as Hlen by evaluate.
  assert (extract_text env50 (document_path env50 notes_doc) = Ok (letters 50))
    as H50 by evaluate.
  assert (extract_text env49 (document_path env49 notes_doc) = Ok (letters 49))
    as H49 by evaluate.
  split; [exact (conj Hg (conj H60 (conj Hlen (conj H50 H49))))|]. split.
  - exact (proj2 (session_replaced env60 env50 (document_message 7 notes_doc)
                    (document_message 7 notes_doc) notes_doc notes_doc
                    (letters 60) (letters 50) ∅
                    eq_refl eq_refl Hg H60 Hlen eq_refl Hg H50)).
  - exact (proj2 (session_replaced env60 env49 (document_message 7 notes_doc)
                    (document_message 7 notes_doc) notes_doc notes_doc
                    (letters 60) (letters 49) ∅
                    eq_refl eq_refl Hg H60 Hlen eq_refl Hg H49)).
Defined.

(** X20: a document with enough text, then a question of the same user:
    the prompt sent to the backend is the grounded template around the
    first 15000 characters at most of the extracted text and the
    question. *)
Theorem upload_then_question_grounded (E1 E2 : env) (upload question : Message)
    (doc : Document) (extracted : str) (st : gmap Z (list N)) :
  from_user_id question = from_user_id upload →
  document upload = Some doc → declared_too_large doc = false →
  extract_text E1 (document_path E1 doc) = Ok extracted →
  (50 <= len extracted)%Z →
  strip (or_empty (text question)) ≠ [] →
  prompts (trace_of (handle_question E2 question
                       (texts_after (handle_document E1 upload st)))) =
    [drop 1 GROUNDED_HEAD ++ context_of extracted ++ GROUNDED_MID
       ++ strip (or_empty (text question))].
Proof.
  intros Hu Hdoc Hgate Hex Hlen Hq.
  rewrite handle_question_prompts by done.
  rewrite (handle_document_texts E1 upload doc st extracted Hdoc Hgate Hex).
  assert ((len extracted <? 50)%Z = false) as -> by (apply Z.ltb_ge; lia).
  unfold question_prompt. rewrite Hu, lookup_insert_eq.
  by rewrite grounded_prompt_template.
Qed.

Lemma upload_then_question_grounded_witness :
  (declared_too_large notes_doc = false
   ∧ extract_text env60 (document_path env60 notes_doc) = Ok (letters 60)
   ∧ (50 <= len (letters 60))%Z
   ∧ strip (or_empty (text question_msg)) ≠ [])
  ∧ prompts (trace_of (handle_question plain_env question_msg
       (texts_after (handle_document env60 (document_message 7 notes_doc) ∅)))) =
      [drop 1 GROUNDED_HEAD ++ letters 60 ++ GROUNDED_MID ++ utf8 "what is it?"].
Proof.
  assert (declared_too_large notes_doc = false) as Hg by evaluate.
  assert (extract_text env60 (document_path env60 notes_doc) = Ok (letters 60))
    as H60 by evaluate.
  assert (50 <= len (letters 60))%Z as Hlen by evaluate.
  assert (strip (or_empty (text question_msg)) ≠ []) as Hq by evaluate.
  split; [exact (conj Hg (conj H60 (conj Hlen Hq)))|].
  rewrite (upload_then_question_grounded env60 plain_env
             (document_message 7 notes_doc) question_msg notes_doc (letters 60) ∅
             eq_refl eq_refl Hg H60 Hlen Hq).
  evaluate.
Defined.

(** ** Invariants of the handlers *)

Lemma texts_ok_insert (st : gmap Z (list N)) (user : Z) (raw : str) :
  texts_ok st → (50 <= len (normalize_persian raw))%Z →
  texts_ok (<[user := normalize_persian raw]> st).
Proof.
  intros Hst Hlen u t. rewrite lookup_insert. case_decide.
  - intros [= <-]. split; [done|apply normalize_persian_normalized].
  - apply Hst.
Qed.

Lemma texts_ok_delete (st : gmap Z (list N)) (user : Z) :
  texts_ok st → texts_ok (delete user st).
Proof.
  intros Hst u t. rewrite lookup_delete. case_decide; [done|apply Hst].
Qed.

(** X21: every handler keeps the stored texts well formed: if each stored
    text has at least 50 characters and is in normal form before a
    request, the same holds after it. *)
Theorem stored_texts_invariant (E : env) (msg : Message) (st : gmap Z (list N)) :
  texts_ok st →
  texts_ok (texts_after (start msg st))
  ∧ texts_ok (texts_after (handle_buttons msg st))
  ∧ texts_ok (texts_after (handle_document E msg st))
  ∧ texts_ok (texts_after (handle_photo E msg st))
  ∧ texts_ok (texts_after (handle_question E msg st)).
Proof.
  intros Hst. split; [exact Hst|]. split; [|split; [|split]].
  - destruct (handle_buttons_store msg st) as [->|[_ ->]];
      [done|by apply texts_ok_delete].
  - destruct (handle_document_store E msg st) as [->|(raw & Hlen & ->)];
      [done|by apply texts_ok_insert].
  - destruct (handle_photo_store E msg st) as [->|(raw & Hlen & ->)];
      [done|by apply texts_ok_insert].
  - by rewrite (proj2 (handle_question_store E msg st)).
Qed.

Lemma stored_texts_invariant_witness :
  texts_ok old_store
  ∧ texts_ok (texts_after (handle_document env50 (document_message 7 notes_doc) old_store))
  ∧ texts_ok (texts_after (handle_buttons forget_msg old_store)).
Proof.
  assert (texts_ok old_store) as Hst.
  { intros u t Hu. unfold old_store in Hu.
    apply lookup_singleton_Some in Hu as [_ <-]. split; evaluate. }
  split; [exact Hst|].
  split.
  - exact (proj1 (proj2 (proj2 (stored_texts_invariant env50
                                  (document_message 7 notes_doc) old_store Hst)))).
  - exact (proj1 (proj2 (stored_texts_invariant env50 forget_msg old_store Hst))).
Defined.

(** X22: a request with nothing for a handler is ignored by it: no
    document, no photo, a blank text, a text that is neither button: the
    handler returns, sends nothing and leaves [USER_TEXTS] as it is. *)
Theorem empty_requests_ignored (E : env) (msg : Message) (st : gmap Z (list N)) :
  (document msg = None → handle_document E msg st = (Ok tt, st, []))
  ∧ (photo msg = [] → handle_photo E msg st = (Ok tt, st, []))
  ∧ (strip (or_empty (text msg)) = [] → handle_question E msg st = (Ok tt, st, []))
  ∧ (strip (or_empty (text msg)) ≠ BTN_FORGET →
     strip (or_empty (text msg)) ≠ BTN_START →
     handle_buttons msg st = (Ok tt, st, [])).
Proof.
  split; [apply handle_document_skip|]. split; [apply handle_photo_skip|].
  split; [apply handle_question_skip|].
  intros Hf Hs. unfold handle_buttons.
  by rewrite (bool_decide_eq_false_2 _ Hf), (bool_decide_eq_false_2 _ Hs).
Qed.

Lemma empty_requests_ignored_witness :
  (document (text_message 7 [SPACE; LF]) = None
   ∧ photo (text_message 7 [SPACE; LF]) = []
   ∧ strip (or_empty (text (text_message 7 [SPACE; LF]))) = []
   ∧ strip (or_empty (text (text_message 7 [SPACE; LF]))) ≠ BTN_FORGET
   ∧ strip (or_empty (text (text_message 7 [SPACE; LF]))) ≠ BTN_START)
  ∧ handle_document plain_env (text_message 7 [SPACE; LF]) old_store = (Ok tt, old_store, [])
  ∧ handle_photo plain_env (text_message 7 [SPACE; LF]) old_store = (Ok tt, old_store, [])
  ∧ handle_question plain_env (text_message 7 [SPACE; LF]) old_store = (Ok tt, old_store, [])
  ∧ handle_buttons (text_message 7 [SPACE; LF]) old_store = (Ok tt, old_store, []).
Proof.
  assert (strip (or_empty (text (text_message 7 [SPACE; LF]))) = []) as Hq
    by evaluate.
  assert (strip (or_empty (text (text_message 7 [SPACE; LF]))) ≠ BTN_FORGET) as Hf
    by evaluate.
  assert (strip (or_empty (text (text_message 7 [SPACE; LF]))) ≠ BTN_START) as Hs
    by evaluate.
  split; [exact (conj eq_refl (conj eq_refl (conj Hq (conj Hf Hs))))|].
  destruct (empty_requests_ignored plain_env (text_message 7 [SPACE; LF]) old_store)
    as (H1 & H2 & H3 & H4).
  exact (conj (H1 eq_refl) (conj (H2 eq_refl) (conj (H3 Hq) (H4 Hf Hs)))).
Defined.

Ltac nonempty_literal :=
  let H := fresh in
  intros H; apply (f_equal (@length N)) in H; vm_compute in H; discriminate.

Lemma fixed_messages_nonempty :
  Forall (fun m : list N => m ≠ [])
    [MSG_WELCOME; MSG_FORGOTTEN; MSG_SEND_FILE; MSG_TOO_LARGE; MSG_EXTRACTING;
     MSG_NO_TEXT; MSG_EXTRACTED; MSG_OCR; MSG_NO_TEXT_PHOTO; MSG_PREPARING;
     MSG_NO_ANSWER; MSG_GEMINI_ERROR].
Proof. repeat (constructor; [nonempty_literal|]). constructor. Qed.

Lemma fixed_message_nonempty (m : list N) :
  m ∈ [MSG_WELCOME; MSG_FORGOTTEN; MSG_SEND_FILE; MSG_TOO_LARGE; MSG_EXTRACTING;
       MSG_NO_TEXT; MSG_EXTRACTED; MSG_OCR; MSG_NO_TEXT_PHOTO; MSG_PREPARING;
       MSG_NO_ANSWER; MSG_GEMINI_ERROR] → m ≠ [].
Proof.
  pose proof fixed_messages_nonempty as H. rewrite Forall_forall in H. apply H.
Qed.

Ltac fixed_message :=
  solve [ apply fixed_message_nonempty;
          repeat lazymatch goal with
                 | |- ?a ∈ ?b :: _ =>
                     first [constr_eq a b; apply list_elem_of_here
                           | apply list_elem_of_further]
                 end ].

(** X23: no handler ever sends an empty message: every text passed to
    [reply_text] has at least one character, the forwarded answer of the
    backend included. *)
Theorem replies_never_empty (E : env) (msg : Message) (st : gmap Z (list N)) :
  Forall (fun m => m ≠ []) (replies (trace_of (start msg st)))
  ∧ Forall (fun m => m ≠ []) (replies (trace_of (handle_buttons msg st)))
  ∧ Forall (fun m => m ≠ []) (replies (trace_of (handle_document E msg st)))
  ∧ Forall (fun m => m ≠ []) (replies (trace_of (handle_photo E msg st)))
  ∧ Forall (fun m => m ≠ []) (replies (trace_of (handle_question E msg st))).
Proof.
  split; [|split; [|split; [|split]]].
  - repeat constructor. fixed_message.
  - unfold handle_buttons. repeat case_bool_decide; repeat constructor; fixed_message.
  - destruct (document msg) as [doc|] eqn:Hdoc;
      [|rewrite handle_document_skip by done; constructor].
    destruct (declared_too_large doc) eqn:Hgate.
    + rewrite (handle_document_oversize E msg doc) by done.
      repeat constructor. fixed_message.
    + rewrite (handle_document_run E msg doc st Hdoc Hgate). cbv zeta.
      destruct (extract_text E (document_path E doc)) as [t|e];
        [destruct (len t <? 50)%Z|]; repeat constructor; fixed_message.
  - destruct (last (photo msg)) as [largest|] eqn:Hlast.
    + rewrite (handle_photo_run E msg largest st Hlast). cbv zeta.
      destruct (extract_text E (photo_path E)) as [t|e];
        [destruct (len t <? 50)%Z|]; repeat constructor; fixed_message.
    + apply last_None_nil in Hlast. rewrite handle_photo_skip by done. constructor.
  - destruct (decide (strip (or_empty (text msg)) = [])) as [Hq|Hq];
      [rewrite handle_question_skip by done; constructor|].
    rewrite handle_question_run by done. cbv zeta.
    destruct (generate_content E _) as [t|e];
      [destruct (strip (or_empty t))|]; repeat constructor;
      first [fixed_message | done].
Qed.

(** X24: the buttons can only remove the stored text of the sender: the
    store after [handle_buttons] is the store before, or the store before
    without the sender's entry, and this only on the forget button; a
    second press changes nothing more; the start button keeps the store
    and asks for a file. *)
Theorem buttons_only_forget_sender (msg : Message) (st : gmap Z (list N)) :
  outcome (handle_buttons msg st) = Ok tt
  ∧ (texts_after (handle_buttons msg st) = st
     ∨ (strip (or_empty (text msg)) = BTN_FORGET
        ∧ texts_after (handle_buttons msg st) = delete (from_user_id msg) st))
  ∧ texts_after (handle_buttons msg (texts_after (handle_buttons msg st))) =
      texts_after (handle_buttons msg st)
  ∧ (strip (or_empty (text msg)) = BTN_START →
     handle_buttons msg st = (Ok tt, st, [Reply MSG_SEND_FILE])).
Proof.
  split; [|split; [apply handle_buttons_store|split]].
  - unfold handle_buttons. by repeat case_bool_decide.
  - destruct (handle_buttons_store msg st) as [H|[Hb H]]; rewrite H.
    + exact H.
    + rewrite handle_buttons_forget by done.
      unfold texts_after. cbn [fst snd]. apply delete_id, lookup_delete_eq.
  - intros Hs. unfold handle_buttons. rewrite Hs.
    rewrite bool_decide_eq_false_2; [by rewrite bool_decide_eq_true_2|].
    intros H. apply (f_equal (@length N)) in H. vm_compute in H. discriminate.
Qed.

Lemma buttons_only_forget_sender_witness :
  strip (or_empty (text (text_message 7 BTN_START))) = BTN_START
  ∧ handle_buttons (text_message 7 BTN_START) old_store =
      (Ok tt, old_store, [Reply MSG_SEND_FILE]).
Proof.
  assert (strip (or_empty (text (text_message 7 BTN_START))) = BTN_START) as Hs
    by evaluate.
  split; [exact Hs|].
  exact (proj2 (proj2 (proj2 (buttons_only_forget_sender
                                (text_message 7 BTN_START) old_store))) Hs).
Defined.

(** ** Photos and prompts *)

(** X25: an exception of the OCR step is not caught in [handle_photo]: it
    leaves the handler after the OCR notice, and [USER_TEXTS] is
    unchanged. *)
Theorem photo_exception_propagates (E : env) (msg : Message) (largest : list N)
    (st : gmap Z (list N)) (e : exn) :
  last (photo msg) = Some largest →
  extract_text E (photo_path E) = Raise e →
  outcome (handle_photo E msg st) = Raise e
  ∧ replies (trace_of (handle_photo E msg st)) = [MSG_OCR]
  ∧ texts_after (handle_photo E msg st) = st.
Proof.
  intros Hlast Hex. rewrite (handle_photo_run E msg largest st Hlast). cbv zeta.
  by rewrite Hex.
Qed.

Lemma photo_exception_propagates_witness :
  (last (photo (photo_message 7)) = Some (utf8 "photo-large")
   ∧ extract_text unreadable_image_env (photo_path unreadable_image_env) =
       Raise broken_file)
  ∧ outcome (handle_photo unreadable_image_env (photo_message 7) old_store) =
      Raise broken_file
  ∧ replies (trace_of (handle_photo unreadable_image_env (photo_message 7) old_store)) =
      [MSG_OCR]
  ∧ texts_after (handle_photo unreadable_image_env (photo_message 7) old_store) =
      old_store.
Proof.
  assert (extract_text unreadable_image_env (photo_path unreadable_image_env) =
            Raise broken_file) as Hex by evaluate.
  split; [exact (conj eq_refl Hex)|].
  exact (photo_exception_propagates unreadable_image_env (photo_message 7)
           (utf8 "photo-large") old_store broken_file eq_refl Hex).
Defined.

Lemma photo_path_fixed (E : env) :
  photo_path E = utf8 "downloads/" ++ uuid4_hex10 E ++ utf8 "_photo.jpg".
Proof.
  unfold photo_path, safe_unique_path. rewrite sanitize_collapse.
  rewrite collapse_none.
  - change (utf8 "downloads/") with (DOWNLOAD_DIR ++ utf8 "/").
    change (utf8 "_photo.jpg") with (utf8 "_" ++ utf8 "photo.jpg").
    by rewrite <- !app_assoc.
  - apply Forall_forall. intros c Hc. apply list_elem_of_In in Hc.
    vm_compute in Hc. intuition (subst; reflexivity).
Qed.

(** X26: of the sizes of a photo the handler takes the last one, and
    downloads it to [downloads/<uid>_photo.jpg] before anything else. *)
Theorem photo_largest_downloaded (E : env) (msg : Message)
    (smaller : list (list N)) (largest : list N) (st : gmap Z (list N)) :
  photo msg = smaller ++ [largest] →
  ∃ rest, trace_of (handle_photo E msg st) =
    Download largest (utf8 "downloads/" ++ uuid4_hex10 E ++ utf8 "_photo.jpg")
      :: Reply MSG_OCR :: rest.
Proof.
  intros Hphoto.
  assert (last (photo msg) = Some largest) as Hlast
    by (rewrite Hphoto; apply last_snoc).
  rewrite (handle_photo_run E msg largest st Hlast). cbv zeta.
  rewrite photo_path_fixed.
  destruct (extract_text E _) as [t|e]; [destruct (len t <? 50)%Z|];
    eexists; reflexivity.
Qed.

Lemma photo_largest_downloaded_witness :
  photo (photo_message 7) = [utf8 "photo-small"] ++ [utf8 "photo-large"]
  ∧ ∃ rest, trace_of (handle_photo env60 (photo_message 7) ∅) =
      Download (utf8 "photo-large")
        (utf8 "downloads/" ++ uuid4_hex10 env60 ++ utf8 "_photo.jpg")
        :: Reply MSG_OCR :: rest.
Proof.
  split; [reflexivity|].
  exact (photo_largest_downloaded env60 (photo_message 7) [utf8 "photo-small"]
           (utf8 "photo-large") ∅ eq_refl).
Defined.

(** X27: a user without a stored text gets the open prompt: the
    direct-answer instruction followed by the question, and nothing
    else. *)
Theorem question_without_text_open (E : env) (msg : Message)
    (st : gmap Z (list N)) :
  strip (or_empty (text msg)) ≠ [] →
  st !! from_user_id msg = None →
  prompts (trace_of (handle_question E msg st)) =
    [OPEN_PREFIX ++ strip (or_empty (text msg))].
Proof.
  intros Hq Hst. rewrite handle_question_prompts by done.
  unfold question_prompt. by rewrite Hst.
Qed.

Lemma question_without_text_open_witness :
  (strip (or_empty (text question_msg)) ≠ []
   ∧ (∅ : gmap Z (list N)) !! from_user_id question_msg = None)
  ∧ prompts (trace_of (handle_question plain_env question_msg ∅)) =
      [OPEN_PREFIX ++ utf8 "what is it?"].
Proof.
  assert (strip (or_empty (text question_msg)) ≠ []) as Hq by evaluate.
  split; [exact (conj Hq (lookup_empty _))|].
  rewrite (question_without_text_open plain_env question_msg ∅ Hq (lookup_empty _)).
  evaluate.
Defined.

(** X28: a stored text of at most 15000 characters goes into the grounded
    prompt whole: the slice neither cuts nor pads it. *)
Theorem short_text_embedded_whole (E : env) (msg : Message)
    (st : gmap Z (list N)) (stored : str) :
  strip (or_empty (text msg)) ≠ [] →
  st !! from_user_id msg = Some stored →
  (len stored <= 15000)%Z →
  context_of stored = stored
  ∧ prompts (trace_of (handle_question E msg st)) =
      [drop 1 GROUNDED_HEAD ++ stored ++ GROUNDED_MID
         ++ strip (or_empty (text msg))].
Proof.
  intros Hq Hst Hlen.
  assert (context_of stored = stored) as Hctx.
  { rewrite context_of_take. apply take_ge. unfold len in Hlen. lia. }
  split; [exact Hctx|]. rewrite handle_question_prompts by done.
  unfold question_prompt. rewrite Hst, grounded_prompt_template by done.
  by rewrite Hctx.
Qed.

Lemma short_text_embedded_whole_witness :
  (strip (or_empty (text question_msg)) ≠ []
   ∧ old_store !! from_user_id question_msg = Some (letters 60)
   ∧ (len (letters 60) <= 15000)%Z)
  ∧ prompts (trace_of (handle_question plain_env question_msg old_store)) =
      [drop 1 GROUNDED_HEAD ++ letters 60 ++ GROUNDED_MID ++ utf8 "what is it?"].
Proof.
  assert (strip (or_empty (text question_msg)) ≠ []) as Hq by evaluate.
  assert (old_store !! from_user_id question_msg = Some (letters 60)) as Hst
    by apply lookup_singleton_eq.
  assert (len (letters 60) <= 15000)%Z as Hlen by evaluate.
  split; [exact (conj Hq (conj Hst Hlen))|].
  rewrite (proj2 (short_text_embedded_whole plain_env question_msg old_store
                    (letters 60) Hq Hst Hlen)).
  evaluate.
Defined.

(** ** Configuration *)

(** X29: the module loads exactly when [BOT_TOKEN] and one of
    [GEMINI_API_KEY], [GOOGLE_API_KEY] are set to something other than
    white space; the values kept are stripped, and [GEMINI_API_KEY] is
    preferred to [GOOGLE_API_KEY] unless it is blank. *)
Theorem module_config_loads_iff (environ : gmap (list N) (list N)) :
  let token := environ_get environ (utf8 "BOT_TOKEN") in
  let gemini := environ_get environ (utf8 "GEMINI_API_KEY") in
  let google := environ_get environ (utf8 "GOOGLE_API_KEY") in
  ((∃ cfg, module_config environ = Ok cfg) ↔
     token ≠ [] ∧ (gemini ≠ [] ∨ google ≠ []))
  ∧ match module_config environ with
    | Ok (t, k) =>
        t = token ∧ k = (if bool_decide (gemini = []) then google else gemini)
        ∧ strip t = t ∧ strip k = k
    | Raise _ => True
    end.
Proof.
  cbv zeta. unfold module_config.
  assert (∀ name, strip (environ_get environ name) = environ_get environ name)
    as Hstrip by (intros name; apply strip_idemp).
  pose proof (Hstrip (utf8 "BOT_TOKEN")) as Ht.
  pose proof (Hstrip (utf8 "GEMINI_API_KEY")) as Hg.
  pose proof (Hstrip (utf8 "GOOGLE_API_KEY")) as Ho.
  destruct (environ_get environ (utf8 "BOT_TOKEN")) as [|c t].
  { split; [|done]. split; [by intros [cfg H]|by intros [H _]]. }
  destruct (environ_get environ (utf8 "GEMINI_API_KEY")) as [|d g].
  - destruct (environ_get environ (utf8 "GOOGLE_API_KEY")) as [|e o].
    + split; [|done]. split; [by intros [cfg H]|by intros [_ [H|H]]].
    + split; [split; [intros _; split; [done|by right]|by eexists]|done].
  - split; [split; [intros _; split; [done|by left]|by eexists]|done].
Qed.
